(** * Verification of the trading-system simulation core

    Shallow embedding of [src/indicators.py] (RSI, support/resistance),
    [src/risk_limits.py] (the risk manager) and [src/backtest_engine.py]
    (the backtest loop), followed by the properties of the specification
    that concern them.

    Numbers.  The program computes with binary64 floats.  The embedding
    idealises a finite float to an exact rational ([Q]) and keeps the
    special values that the code can produce from finite inputs and on
    which its control flow depends: the two infinities and NaN, which
    numpy/pandas arithmetic returns at a division by zero, and the
    [ZeroDivisionError] that plain Python float division raises instead.
    Rounding, overflow and the sign of zero are not modelled there.

    The sign of a profit does depend on rounding.  For it the backtest is
    embedded a second time, [BacktestEngine64], on the binary64 floats of
    the kernel, whose operations round to nearest as the machine does. *)

From Stdlib Require Import QArith Qminmax Qabs Lqa Lia ZArith List Sorted.
From Stdlib Require Floats Qpower.
From stdpp Require Import gmap strings list pretty.

(* ===================================================================== *)
(** ** Float values of numpy / pandas *)
(* ===================================================================== *)

Module Float.

(** A numpy float64: a finite value, an infinity, or NaN (which pandas
    also uses as its "missing" marker). *)
Inductive fval : Type :=
| Fin (q : Q)
| PInf
| NInf
| NaN.

Definition Qltb (a b : Q) : bool :=
  match (a ?= b)%Q with Lt => true | _ => false end.

(** The infinity whose sign is the sign of [a]; NaN when [a] is zero. *)
Definition inf_of_sign (a : Q) : fval :=
  match (a ?= 0)%Q with Gt => PInf | Lt => NInf | Eq => NaN end.

Definition fneg (x : fval) : fval :=
  match x with
  | Fin q => Fin (- q)
  | PInf => NInf
  | NInf => PInf
  | NaN => NaN
  end.

Definition fadd (x y : fval) : fval :=
  match x, y with
  | NaN, _ | _, NaN => NaN
  | Fin a, Fin b => Fin (a + b)
  | PInf, NInf | NInf, PInf => NaN
  | PInf, _ | _, PInf => PInf
  | NInf, _ | _, NInf => NInf
  end.

Definition fsub (x y : fval) : fval := fadd x (fneg y).

Definition fmul (x y : fval) : fval :=
  match x, y with
  | NaN, _ | _, NaN => NaN
  | Fin a, Fin b => Fin (a * b)
  | Fin a, PInf | PInf, Fin a => inf_of_sign a
  | Fin a, NInf | NInf, Fin a => inf_of_sign (- a)
  | PInf, PInf | NInf, NInf => PInf
  | PInf, NInf | NInf, PInf => NInf
  end.

(** IEEE division as numpy performs it: no exception, [x/0] is an
    infinity of the sign of [x], and [0/0] is NaN. *)
Definition fdiv (x y : fval) : fval :=
  match x, y with
  | NaN, _ | _, NaN => NaN
  | Fin a, Fin b => if Qeq_bool b 0 then inf_of_sign a else Fin (a / b)
  | Fin _, PInf | Fin _, NInf => Fin 0
  | PInf, Fin b => if Qle_bool 0 b then PInf else NInf
  | NInf, Fin b => if Qle_bool 0 b then NInf else PInf
  | PInf, PInf | PInf, NInf | NInf, PInf | NInf, NInf => NaN
  end.

(** [x < y]; every comparison with NaN is false. *)
Definition flt (x y : fval) : bool :=
  match x, y with
  | NaN, _ | _, NaN => false
  | Fin a, Fin b => Qltb a b
  | NInf, NInf | PInf, _ | _, NInf => false
  | NInf, _ | _, PInf => true
  end.

(** [x == y]; false as soon as one side is NaN. *)
Definition feq (x y : fval) : bool :=
  match x, y with
  | Fin a, Fin b => Qeq_bool a b
  | PInf, PInf | NInf, NInf => true
  | _, _ => false
  end.


(** [numpy.isfinite(x)]. *)
Definition isfinite (x : fval) : bool :=
  match x with Fin _ => true | _ => false end.

Definition of_nat (n : nat) : fval := Fin (inject_Z (Z.of_nat n)).

Definition fsum (l : list fval) : fval := foldr fadd (Fin 0) l.




End Float.

(* ===================================================================== *)
(** ** Exceptions raised by the libraries *)
(* ===================================================================== *)

Module Exceptions.

Inductive exc : Type := ValueError | BinanceAPIException.

(** A value, or one of the exceptions above. *)
Inductive result (A : Type) : Type :=
| Return (a : A)
| Raise (e : exc).
Arguments Return {A} a.
Arguments Raise {A} e.

Definition bind {A B} (r : result A) (k : A -> result B) : result B :=
  match r with
  | Return a => k a
  | Raise e => Raise e
  end.

End Exceptions.

(* ===================================================================== *)
(** ** The pandas Series operations used by the indicators *)
(* ===================================================================== *)

Module Pandas.
Import Float.

(** A float Series with the default positional index. *)
Abbreviation Series := (list fval).

Fixpoint diff_from (prev : fval) (s : Series) : Series :=
  match s with
  | [] => []
  | x :: t => fsub x prev :: diff_from x t
  end.

(** [s.diff()]: first difference; the first element has no predecessor
    and is NaN. *)
Definition diff (s : Series) : Series :=
  match s with
  | [] => []
  | x :: t => NaN :: diff_from x t
  end.

(** [s.where(cond, other)]: keep the entries where [cond] holds, put
    [other] elsewhere. *)
Definition where_ (cond : fval -> bool) (other : fval) (s : Series) : Series :=
  map (fun x => if cond x then x else other) s.

(** The trailing window of at most [w] entries that ends at position [i]. *)
Definition window_at (w : nat) (s : Series) (i : nat) : Series :=
  skipn (i + 1 - w) (firstn (i + 1) s).

(** [s.rolling(window=w).mean()]: pandas counts the finite entries of a
    window as its observations (NaN is missing, and an infinity is turned
    into NaN before the aggregation); [min_periods] defaults to the
    window size, so the result is NaN unless the window holds [w]
    observations, and otherwise it is their mean. *)
Definition rolling_mean (w : nat) (s : Series) : Series :=
  map (fun i =>
         let obs := List.filter isfinite (window_at w s i) in
         if (length obs <? w)%nat then NaN
         else fdiv (fsum obs) (of_nat (length obs)))
      (seq 0 (length s)).

(** [s.iloc[a:b]] for [0 <= a]. *)
Definition iloc_slice {A} (s : list A) (a b : nat) : list A :=
  skipn a (firstn b s).

Fixpoint min_from (m : Q) (l : list Q) : Q :=
  match l with
  | [] => m
  | x :: t => min_from (if Qltb x m then x else m) t
  end.

Fixpoint max_from (m : Q) (l : list Q) : Q :=
  match l with
  | [] => m
  | x :: t => max_from (if Qltb m x then x else m) t
  end.

(** [s.min()] and [s.max()] of a Series of finite values: NaN on the
    empty Series. *)
Definition series_min (l : list Q) : fval :=
  match l with
  | [] => NaN
  | x :: t => Fin (min_from x t)
  end.

Definition series_max (l : list Q) : fval :=
  match l with
  | [] => NaN
  | x :: t => Fin (max_from x t)
  end.








(** The weighted sums behind [s.ewm(span).mean()] (the default
    [adjust=True]): entry [t] is
    [sum_i decay^i x_(t-i) / sum_i decay^i]. *)
Fixpoint ewm_from (decay num den : Q) (xs : list Q) : list Q :=
  match xs with
  | [] => []
  | x :: rest =>
      let num := (x + decay * num)%Q in
      let den := (1 + decay * den)%Q in
      (num / den)%Q :: ewm_from decay num den rest
  end.

(** [s.ewm(span=span).mean()] on finite values; pandas refuses a span
    below 1.  The smoothing factor is [2 / (span + 1)]. *)
Definition ewm_mean (span : nat) (xs : list Q) : Exceptions.result (list Q) :=
  if (span <? 1)%nat then Exceptions.Raise Exceptions.ValueError
  else
    let alpha := (2 / (inject_Z (Z.of_nat span) + 1))%Q in
    Exceptions.Return (ewm_from (1 - alpha) 0 0 xs).

End Pandas.

(* ===================================================================== *)
(** ** [src/indicators.py] *)
(* ===================================================================== *)

Module TechnicalIndicators.
Import Float Pandas.

(** The rolling mean of the gains, line 15 of [calculate_rsi]:
    [delta.where(delta > 0, 0).rolling(window=period).mean()]. *)
Definition rsi_gain (prices : list Q) (period : nat) : Series :=
  let delta := diff (map Fin prices) in
  rolling_mean period (where_ (fun d => flt (Fin 0) d) (Fin 0) delta).

(** The rolling mean of the losses, line 16:
    [(-delta.where(delta < 0, 0)).rolling(window=period).mean()]. *)
Definition rsi_loss (prices : list Q) (period : nat) : Series :=
  let delta := diff (map Fin prices) in
  rolling_mean period (map fneg (where_ (fun d => flt d (Fin 0)) (Fin 0) delta)).

Definition calculate_rsi (prices : list Q) (period : nat) : Series :=
  let gain := rsi_gain prices period in
  let loss := rsi_loss prices period in
  let rs := zip_with fdiv gain loss in
  let rsi := map (fun x => fsub (Fin 100) (fdiv (Fin 100) (fadd (Fin 1) x))) rs in
  rsi.

(** [range(a, b)]. *)
Definition range (a b : nat) : list nat := seq a (b - a).

(** The loop over [range(window, len(prices) - window)]; every index it
    visits is a position of the series, so [prices.iloc[i]] is defined. *)
Definition identify_support_resistance (prices : list Q) (window : nat)
  : list (nat * Q) * list (nat * Q) :=
  foldl (fun '(support, resistance) i =>
           match prices !! i with
           | None => (support, resistance)
           | Some p =>
               let w := iloc_slice prices (i - window) (i + window) in
               let support :=
                 if feq (Fin p) (series_min w) then support ++ [(i, p)] else support in
               let resistance :=
                 if feq (Fin p) (series_max w) then resistance ++ [(i, p)] else resistance in
               (support, resistance)
           end)
        ([], [])
        (range window (length prices - window)).

(** [calculate_macd] on finite prices; every entry of the three returned
    Series is a finite value. *)
Definition calculate_macd (prices : list Q) (fast slow signal : nat)
  : Exceptions.result (list Q * list Q * list Q) :=
  Exceptions.bind (ewm_mean fast prices) (fun ema_fast =>
  Exceptions.bind (ewm_mean slow prices) (fun ema_slow =>
  let macd_line := zip_with Qminus ema_fast ema_slow in
  Exceptions.bind (ewm_mean signal macd_line) (fun signal_line =>
  let histogram := zip_with Qminus macd_line signal_line in
  Exceptions.Return (macd_line, signal_line, histogram)))).



(** The dict of moving averages, keyed by [f'MA{period}']. *)
Definition calculate_moving_averages (prices : list Q) (periods : list nat)
  : gmap string Series :=
  foldl (fun mas period =>
           <["MA" +:+ pretty period := rolling_mean period (map Fin prices)]> mas)
        ∅ periods.


End TechnicalIndicators.

(* ===================================================================== *)
(** ** Plain Python floats and exceptions *)
(* ===================================================================== *)

Module Python.
Import Float.

Inductive exn : Type := ZeroDivisionError.

(** The result of a Python call: a returned value or a raised exception. *)
Inductive outcome (A : Type) : Type :=
| Returned (a : A)
| Raised (e : exn).
Arguments Returned {A} a.
Arguments Raised {A} e.

(** [a / b] on Python floats raises on a zero divisor. *)
Definition truediv (a b : Q) : outcome Q :=
  if Qeq_bool b 0 then Raised ZeroDivisionError else Returned (a / b)%Q.

(** The builtin [min(a, b)]: the first argument unless the second is
    strictly smaller. *)
Definition py_min (a b : Q) : Q := if Qltb b a then b else a.

End Python.

(* ===================================================================== *)
(** ** [src/risk_limits.py] *)
(* ===================================================================== *)

Module RiskManager.
Import Float Python.

(** The dict stored per symbol by [add_position]. *)
Record Position : Type := {
  entry_price : Q;
  quantity : Q;
  stop_loss : Q;
  take_profit : Q
}.

(** The attributes of a [RiskManager] instance. *)
Record t : Type := {
  max_daily_loss : Q;
  max_position_size : Q;
  max_leverage : Q;
  current_loss : Q;
  positions : gmap string Position
}.

(** The non-empty dict returned by [close_position]. *)
Record ClosedTrade : Type := {
  symbol : string;
  pnl : Q;
  pnl_pct : Q;
  closed_quantity : Q
}.

(** [__init__] and its default arguments. *)
Definition init (max_daily_loss max_position_size max_leverage : Q) : t :=
  {| max_daily_loss := max_daily_loss;
     max_position_size := max_position_size;
     max_leverage := max_leverage;
     current_loss := 0;
     positions := ∅ |}.

Definition init_default : t := init (5 # 100) (1 # 10) 1.

(** A method body: it runs on the instance [self], may update it, and
    returns or raises.  An exception leaves the updates made so far. *)
Definition M (A : Type) : Type := t -> outcome A * t.

#[global] Instance M_ret : MRet M := fun A a self => (Returned a, self).
#[global] Instance M_bind : MBind M := fun A B f m self =>
  match m self with
  | (Returned a, self') => f a self'
  | (Raised e, self') => (Raised e, self')
  end.

Definition get_self : M t := fun self => (Returned self, self).
Definition set_current_loss (v : Q) : M unit := fun self =>
  (Returned tt,
   {| max_daily_loss := max_daily_loss self;
      max_position_size := max_position_size self;
      max_leverage := max_leverage self;
      current_loss := v;
      positions := positions self |}).
Definition set_positions (p : gmap string Position) : M unit := fun self =>
  (Returned tt,
   {| max_daily_loss := max_daily_loss self;
      max_position_size := max_position_size self;
      max_leverage := max_leverage self;
      current_loss := current_loss self;
      positions := p |}).
Definition lift {A} (o : outcome A) : M A := fun self => (o, self).

Definition calculate_position_size
    (account_balance risk_per_trade stop_loss_pct : Q) : M Q :=
  self ← get_self;
  let risk_amount := (account_balance * risk_per_trade)%Q in
  position_size ← lift (truediv risk_amount stop_loss_pct);
  let max_position := (account_balance * max_position_size self)%Q in
  let position_size := py_min position_size max_position in
  mret position_size.

Definition can_open_position
    (symbol : string) (position_size account_balance : Q) : M bool :=
  self ← get_self;
  if Qle_bool (account_balance * max_daily_loss self) (current_loss self)
  then mret false
  else if Qltb (account_balance * max_position_size self) position_size
  then mret false
  else mret true.

Definition add_position
    (symbol : string) (entry_price quantity stop_loss : Q) : M unit :=
  self ← get_self;
  set_positions
    (<[symbol := {| entry_price := entry_price;
                    quantity := quantity;
                    stop_loss := stop_loss;
                    take_profit := entry_price * (105 # 100) |}]>
       (positions self)).

Definition check_stop_loss (symbol : string) (current_price : Q) : M bool :=
  self ← get_self;
  match positions self !! symbol with
  | None => mret false
  | Some pos =>
      if Qle_bool current_price (stop_loss pos) then mret true else mret false
  end.

Definition check_take_profit (symbol : string) (current_price : Q) : M bool :=
  self ← get_self;
  match positions self !! symbol with
  | None => mret false
  | Some pos =>
      if Qle_bool (take_profit pos) current_price then mret true else mret false
  end.

(** [close_position]; the empty dict is [None]. *)
Definition close_position (symbol : string) (exit_price : Q)
  : M (option ClosedTrade) :=
  self ← get_self;
  match positions self !! symbol with
  | None => mret None
  | Some pos =>
      let pnl := ((exit_price - entry_price pos) * quantity pos)%Q in
      ratio ← lift (truediv (exit_price - entry_price pos) (entry_price pos));
      let pnl_pct := (ratio * 100)%Q in
      (if Qltb pnl 0
       then set_current_loss (current_loss self + Qabs pnl)
       else mret tt);;
      let result := {| symbol := symbol;
                       pnl := pnl;
                       pnl_pct := pnl_pct;
                       closed_quantity := quantity pos |} in
      self ← get_self;
      set_positions (delete symbol (positions self));;
      mret (Some result)
  end.

(** One call on an instance, for reasoning about call sequences. *)
Inductive call : Type :=
| CalculatePositionSize (account_balance risk_per_trade stop_loss_pct : Q)
| CanOpenPosition (symbol : string) (position_size account_balance : Q)
| AddPosition (symbol : string) (entry_price quantity stop_loss : Q)
| CheckStopLoss (symbol : string) (current_price : Q)
| CheckTakeProfit (symbol : string) (current_price : Q)
| ClosePosition (symbol : string) (exit_price : Q).

(** The instance after one call (whether it returned or raised). *)
Definition after (self : t) (c : call) : t :=
  match c with
  | CalculatePositionSize b r s => snd (calculate_position_size b r s self)
  | CanOpenPosition sym p b => snd (can_open_position sym p b self)
  | AddPosition sym e q s => snd (add_position sym e q s self)
  | CheckStopLoss sym p => snd (check_stop_loss sym p self)
  | CheckTakeProfit sym p => snd (check_take_profit sym p self)
  | ClosePosition sym p => snd (close_position sym p self)
  end.

(** The instance after a sequence of calls, left to right. *)
Definition after_all (self : t) (cs : list call) : t := foldl after self cs.

End RiskManager.

(* ===================================================================== *)
(** ** [src/backtest_engine.py] *)
(* ===================================================================== *)

Module BacktestEngine.
Import Float Python.

(** The strategy's answer.  The loop compares it with the strings
    ['BUY'] and ['SELL'] only; every other answer behaves as [HOLD]. *)
Inductive Signal : Type := BUY | SELL | HOLD.

(** One row of the OHLCV frame (numpy floats). *)
Record Row : Type := {
  open : fval;
  high : fval;
  low : fval;
  close : fval;
  volume : fval
}.

(** The frame: rows in order, each with its integer index label. *)
Abbreviation DataFrame := (list (Z * Row)).

(** [df.iloc[:stop]] with Python's slice rules for a negative or too
    large [stop]. *)
Definition iloc_to {A} (df : list A) (stop : Z) : list A :=
  let n := Z.of_nat (length df) in
  let stop := if (stop <? 0)%Z then Z.max 0 (stop + n) else Z.min stop n in
  firstn (Z.to_nat stop) df.

(** A number of the loop: a plain Python float, or a numpy float64 once
    a value read from the frame has entered the computation.  The two
    differ at a division by zero. *)
Inductive number : Type :=
| Py (q : Q)
| Np (v : fval).

Definition to_np (x : number) : fval :=
  match x with Py q => Fin q | Np v => v end.

Definition num_sub (x y : number) : number :=
  match x, y with
  | Py a, Py b => Py (a - b)
  | _, _ => Np (fsub (to_np x) (to_np y))
  end.

Definition num_mul (x y : number) : number :=
  match x, y with
  | Py a, Py b => Py (a * b)
  | _, _ => Np (fmul (to_np x) (to_np y))
  end.

Definition num_div (x y : number) : outcome number :=
  match x, y with
  | Py a, Py b =>
      match truediv a b with
      | Returned q => Returned (Py q)
      | Raised e => Raised e
      end
  | _, _ => Returned (Np (fdiv (to_np x) (to_np y)))
  end.

(** The dict [{'entry': ..., 'size': ...}]. *)
Record Position : Type := {
  entry : fval;
  size : fval
}.

(** The local variables of [run_backtest]. *)
Record State : Type := {
  balance : number;
  position : option Position;
  trades : list fval
}.

(** The body of the [for] loop for one row and the signal obtained
    for it. *)
Definition on_row (st : State) (signal : Signal) (row : Row) : State :=
  match signal, position st with
  | BUY, None =>
      {| balance := balance st;
         position := Some {| entry := close row;
                             size := fdiv (to_np (balance st)) (close row) |};
         trades := trades st |}
  | SELL, Some pos =>
      let pnl := fmul (fsub (close row) (entry pos)) (size pos) in
      {| balance := Np (fadd (to_np (balance st)) pnl);
         position := None;
         trades := trades st ++ [pnl] |}
  | _, _ => st
  end.

(** The signal the strategy gives at the row labelled [idx]. *)
Definition signal_at (df : DataFrame) (strategy_func : DataFrame -> Signal)
    (idx : Z) : Signal :=
  strategy_func (iloc_to df (idx + 1)).

(** The state after the loop over [df.iterrows()]. *)
Definition run_loop (initial_capital : Q) (df : DataFrame)
    (strategy_func : DataFrame -> Signal) : State :=
  foldl (fun st '(idx, row) => on_row st (signal_at df strategy_func idx) row)
        {| balance := Py initial_capital; position := None; trades := [] |}
        df.

(** The local variables when the loop has gone through its first [n]
    rows (the strategy still sees the slices of the whole frame). *)
Definition state_after (initial_capital : Q) (df : DataFrame)
    (strategy_func : DataFrame -> Signal) (n : nat) : State :=
  foldl (fun st '(idx, row) => on_row st (signal_at df strategy_func idx) row)
        {| balance := Py initial_capital; position := None; trades := [] |}
        (firstn n df).

(** The returned dict. *)
Record Report : Type := {
  final_balance : number;
  total_return : number;
  trade_count : nat;
  win_rate : number
}.

(** [len([t for t in trades if t > 0]) / len(trades) if trades else 0]. *)
Definition compute_win_rate (trades : list fval) : outcome number :=
  match trades with
  | [] => Returned (Py 0)
  | _ :: _ =>
      let wins := List.filter (fun t => flt (Fin 0) t) trades in
      num_div (Py (inject_Z (Z.of_nat (length wins))))
              (Py (inject_Z (Z.of_nat (length trades))))
  end.

Definition run_backtest (initial_capital : Q) (df : DataFrame)
    (strategy_func : DataFrame -> Signal) : outcome Report :=
  let st := run_loop initial_capital df strategy_func in
  match num_div (num_sub (balance st) (Py initial_capital)) (Py initial_capital) with
  | Raised e => Raised e
  | Returned ratio =>
      let total_return := num_mul ratio (Py 100) in
      match compute_win_rate (trades st) with
      | Raised e => Raised e
      | Returned wr =>
          Returned {| final_balance := balance st;
                      total_return := total_return;
                      trade_count := length (trades st);
                      win_rate := wr |}
      end
  end.

(** The signals of a run, one per row, and the loop seen as a fold over
    the pairs of signal and row (see [run_loop_steps]). *)
Definition signals (df : DataFrame) (strategy_func : DataFrame -> Signal)
  : list Signal :=
  map (fun r => signal_at df strategy_func (fst r)) df.

Definition run_steps (st : State) (steps : list (Signal * Row)) : State :=
  foldl (fun st step => on_row st (fst step) (snd step)) st steps.

(** A frame with the default [RangeIndex] built from close prices. *)
Definition candle (c : Q) : Row :=
  {| open := Fin c; high := Fin c; low := Fin c; close := Fin c; volume := Fin 0 |}.

Definition frame_of_closes (closes : list Q) : DataFrame :=
  zip (map Z.of_nat (seq 0 (length closes))) (map candle closes).

Definition closes_of (df : DataFrame) : list fval := map (fun r => close (snd r)) df.

End BacktestEngine.

(* ===================================================================== *)
(** ** Binary64 numbers *)
(* ===================================================================== *)

Module Binary64.
Import Float.

(** The number a binary64 stands for: zero of either sign is 0, and a
    finite nonzero float is its signed mantissa times a power of two. *)
Definition value (x : PrimFloat.float) : fval :=
  match FloatOps.Prim2SF x with
  | SpecFloat.S754_zero _ => Fin 0
  | SpecFloat.S754_infinity false => PInf
  | SpecFloat.S754_infinity true => NInf
  | SpecFloat.S754_nan => NaN
  | SpecFloat.S754_finite s m e =>
      Fin ((if s then - inject_Z (Zpos m) else inject_Z (Zpos m)) * 2 ^ e)
  end.

(** A list length as a float (lengths are far below [2^53], so the
    conversion is exact and the quotient of two lengths is the one Python's
    integer division returns). *)
Definition of_nat (n : nat) : PrimFloat.float :=
  PrimFloat.of_uint63 (Uint63.of_Z (Z.of_nat n)).

End Binary64.

(* ===================================================================== *)
(** ** [src/backtest_engine.py] in binary64 arithmetic *)
(* ===================================================================== *)

(** The same method as in [BacktestEngine], with every number a binary64
    float and every operation the rounded one of the machine.  Properties
    that depend on rounding, underflow or overflow are stated on this
    embedding. *)
Module BacktestEngine64.
Import Python Binary64 PrimFloat.
Local Open Scope float_scope.

Abbreviation Signal := BacktestEngine.Signal.
Abbreviation BUY := BacktestEngine.BUY.
Abbreviation SELL := BacktestEngine.SELL.
Abbreviation HOLD := BacktestEngine.HOLD.

(** One row of the OHLCV frame ([numpy.float64] columns). *)
Record Row : Type := {
  open : float;
  high : float;
  low : float;
  close : float;
  volume : float
}.

Abbreviation DataFrame := (list (Z * Row)).

(** A plain Python float or a [numpy.float64]: the same binary64 values
    and the same rounded operations, except that Python raises at a
    division by zero where numpy returns an infinity or NaN. *)
Inductive number : Type :=
| Py (x : float)
| Np (x : float).

Definition to_np (x : number) : float :=
  match x with Py a => a | Np a => a end.

Definition num_sub (x y : number) : number :=
  match x, y with
  | Py a, Py b => Py (a - b)
  | _, _ => Np (to_np x - to_np y)
  end.

Definition num_mul (x y : number) : number :=
  match x, y with
  | Py a, Py b => Py (a * b)
  | _, _ => Np (to_np x * to_np y)
  end.

Definition num_div (x y : number) : outcome number :=
  match x, y with
  | Py a, Py b =>
      if b =? 0 then Raised ZeroDivisionError else Returned (Py (a / b))
  | _, _ => Returned (Np (to_np x / to_np y))
  end.

Record Position : Type := {
  entry : float;
  size : float
}.

Record State : Type := {
  balance : number;
  position : option Position;
  trades : list float
}.

(** The body of the [for] loop. *)
Definition on_row (st : State) (signal : Signal) (row : Row) : State :=
  match signal, position st with
  | BacktestEngine.BUY, None =>
      {| balance := balance st;
         position := Some {| entry := close row;
                             size := to_np (balance st) / close row |};
         trades := trades st |}
  | BacktestEngine.SELL, Some pos =>
      let pnl := (close row - entry pos) * size pos in
      {| balance := Np (to_np (balance st) + pnl);
         position := None;
         trades := trades st ++ [pnl] |}
  | _, _ => st
  end.

Definition signal_at (df : DataFrame) (strategy_func : DataFrame -> Signal)
    (idx : Z) : Signal :=
  strategy_func (BacktestEngine.iloc_to df (idx + 1)).

Definition run_loop (initial_capital : float) (df : DataFrame)
    (strategy_func : DataFrame -> Signal) : State :=
  foldl (fun st '(idx, row) => on_row st (signal_at df strategy_func idx) row)
        {| balance := Py initial_capital; position := None; trades := [] |}
        df.

Record Report : Type := {
  final_balance : number;
  total_return : number;
  trade_count : nat;
  win_rate : number
}.

(** [len([t for t in trades if t > 0]) / len(trades) if trades else 0]. *)
Definition compute_win_rate (trades : list float) : outcome number :=
  match trades with
  | [] => Returned (Py 0)
  | _ :: _ =>
      let wins := List.filter (fun t => 0 <? t) trades in
      num_div (Py (of_nat (length wins))) (Py (of_nat (length trades)))
  end.

Definition run_backtest (initial_capital : float) (df : DataFrame)
    (strategy_func : DataFrame -> Signal) : outcome Report :=
  let st := run_loop initial_capital df strategy_func in
  match num_div (num_sub (balance st) (Py initial_capital)) (Py initial_capital) with
  | Raised e => Raised e
  | Returned ratio =>
      let total_return := num_mul ratio (Py 100) in
      match compute_win_rate (trades st) with
      | Raised e => Raised e
      | Returned wr =>
          Returned {| final_balance := balance st;
                      total_return := total_return;
                      trade_count := length (trades st);
                      win_rate := wr |}
      end
  end.

(** The signals of a run, one per row. *)
Definition signals (df : DataFrame) (strategy_func : DataFrame -> Signal)
  : list Signal :=
  map (fun r => signal_at df strategy_func (fst r)) df.

(** A frame with the default [RangeIndex] built from close prices. *)
Definition candle (c : float) : Row :=
  {| open := c; high := c; low := c; close := c; volume := 0 |}.

Definition frame_of_closes (closes : list float) : DataFrame :=
  zip (map Z.of_nat (seq 0 (length closes))) (map candle closes).

Definition closes_of (df : DataFrame) : list float := map (fun r => close (snd r)) df.

End BacktestEngine64.

(* ===================================================================== *)
(** ** [src/lstm_model.py]: data preparation *)
(* ===================================================================== *)

Module LSTMModel.
Import Float Exceptions.

(** The fitted attributes of sklearn's [MinMaxScaler(feature_range=(0, 1))]
    for the single price column. *)
Record Scaler : Type := {
  data_min : Q;
  data_max : Q;
  scale_ : Q;
  min_ : Q
}.

(** The machine epsilon of float64. *)
Definition eps : Q := 1 # (2 ^ 52).

(** A data range below [10 * eps] counts as constant and is replaced by 1. *)
Definition handle_zeros_in_scale (data_range : Q) : Q :=
  if Qltb data_range (10 * eps) then 1 else data_range.

(** [scaler.fit]: an empty array is refused. *)
Definition fit (data : list Q) : result Scaler :=
  match data with
  | [] => Raise ValueError
  | x :: rest =>
      let data_min := Pandas.min_from x rest in
      let data_max := Pandas.max_from x rest in
      let data_range := (data_max - data_min)%Q in
      let scale := ((1 - 0) / handle_zeros_in_scale data_range)%Q in
      Return {| data_min := data_min;
                data_max := data_max;
                scale_ := scale;
                min_ := 0 - data_min * scale |}
  end.

(** [scaler.transform]: [X * scale_ + min_], here on the exact values (the
    library rounds each operation and does not clip the result). *)
Definition transform (sc : Scaler) (data : list Q) : list Q :=
  map (fun x => (x * scale_ sc + min_ sc)%Q) data.

(** The attributes of an [LSTMModel] that [prepare_data] reads and
    writes. *)
Record t : Type := {
  lookback_window : nat;
  scaler : option Scaler
}.

(** The two lists built by the loop of [prepare_data] over
    [range(len(scaled_data) - lookback_window)]. *)
Definition windows (lookback : nat) (scaled_data : list Q)
  : list (list Q) * list Q :=
  foldl (fun '(X, y) i =>
           match scaled_data !! (i + lookback)%nat with
           | Some target =>
               (X ++ [Pandas.iloc_slice scaled_data i (i + lookback)],
                y ++ [target])
           | None => (X, y)
           end)
        ([], [])
        (TechnicalIndicators.range 0 (length scaled_data - lookback)).

(** [prepare_data]: the result (or the exception of the scaler) and the
    instance afterwards.  A failed fit leaves the scaler unfitted. *)
Definition prepare_data (self : t) (prices : list Q)
  : result (list (list Q) * list Q) * t :=
  match fit prices with
  | Raise e =>
      (Raise e, {| lookback_window := lookback_window self; scaler := None |})
  | Return sc =>
      let scaled_data := transform sc prices in
      (Return (windows (lookback_window self) scaled_data),
       {| lookback_window := lookback_window self; scaler := Some sc |})
  end.

End LSTMModel.

(* ===================================================================== *)
(** ** [src/binance_client.py]: account balances *)
(* ===================================================================== *)

Module BinanceClient.
Import Float Exceptions.

(** One entry of [account['balances']] as the exchange sends it: the
    amounts are decimal strings. *)
Record AssetBalance : Type := {
  asset : string;
  free : string;
  locked : string
}.

(** The dict stored per asset. *)
Record Balance : Type := {
  balance_free : Q;
  balance_locked : Q;
  balance_total : Q
}.

Section WithFloat.

(** Python's [float(s)]; [None] stands for its [ValueError]. *)
Variable float : string -> option Q.

Definition to_float (s : string) : result Q :=
  match float s with
  | Some q => Return q
  | None => Raise ValueError
  end.

(** One iteration of the loop of [get_account_balance]. *)
Definition record_asset (balances : gmap string Balance) (a : AssetBalance)
  : result (gmap string Balance) :=
  bind (to_float (free a)) (fun f =>
  bind (to_float (locked a)) (fun l =>
  if Qltb 0 f || Qltb 0 l
  then Return (<[asset a := {| balance_free := f;
                               balance_locked := l;
                               balance_total := f + l |}]> balances)
  else Return balances)).

(** [get_account_balance], given what [self.client.get_account()] gave:
    the list under ['balances'], or the exception of the API, which is
    logged and raised again. *)
Definition get_account_balance (account : result (list AssetBalance))
  : result (gmap string Balance) :=
  bind account (fun entries =>
  foldl (fun acc a => bind acc (fun balances => record_asset balances a))
        (Return ∅) entries).

End WithFloat.

End BinanceClient.

(* ===================================================================== *)
(** ** Vocabulary of the specification *)
(* ===================================================================== *)

Module Spec.
Import Float.

(** Invariant of the backtest loop: the balance is the capital plus the
    logged pnls, added in order. *)
Definition balanced (C : Q) (st : BacktestEngine.State) : Prop :=
  BacktestEngine.to_np (BacktestEngine.balance st)
  = foldl fadd (Fin C) (BacktestEngine.trades st).

(** A finite value that is not negative. *)
Definition nonneg_fin (x : fval) : Prop :=
  match x with Fin q => (0 <= q)%Q | _ => False end.

(** A difference of finite prices: finite, or the NaN of the first row. *)
Definition fin_or_nan (x : fval) : Prop :=
  match x with Fin _ | NaN => True | _ => False end.

(** The value line 18 of [calculate_rsi] gives from a mean gain and a
    mean loss. *)
Definition rsi_of (gain loss : fval) : fval :=
  fsub (Fin 100) (fdiv (Fin 100) (fadd (Fin 1) (fdiv gain loss))).

(** What one iteration of the loop of [identify_support_resistance]
    appends to [support] and to [resistance]. *)
Definition support_at (prices : list Q) (window i : nat) : list (nat * Q) :=
  match prices !! i with
  | Some p =>
      if feq (Fin p)
           (Pandas.series_min (Pandas.iloc_slice prices (i - window) (i + window)))
      then [(i, p)] else []
  | None => []
  end.

Definition resistance_at (prices : list Q) (window i : nat) : list (nat * Q) :=
  match prices !! i with
  | Some p =>
      if feq (Fin p)
           (Pandas.series_max (Pandas.iloc_slice prices (i - window) (i + window)))
      then [(i, p)] else []
  | None => []
  end.

(** The specification's local support, read with the closed window
    [i - W .. i + W] centered on [i]. *)
Definition window_minimum_closed (prices : list Q) (W i : nat) : Prop :=
  exists p, prices !! i = Some p
            /\ forall j x, (i - W <= j <= i + W)%nat ->
                           prices !! j = Some x -> (p <= x)%Q.

(** The same, read with the [2W] points [i - W .. i + W - 1]. *)
Definition window_minimum_2w (prices : list Q) (W i : nat) : Prop :=
  exists p, prices !! i = Some p
            /\ forall j x, (i - W <= j < i + W)%nat ->
                           prices !! j = Some x -> (p <= x)%Q.

(** The strategy of the specification's scenario: BUY when the current
    close is below the prior close, SELL otherwise. *)
Definition reversal_strategy (view : BacktestEngine.DataFrame)
  : BacktestEngine.Signal :=
  match rev (BacktestEngine.closes_of view) with
  | Fin c :: Fin prior :: _ =>
      if Qltb c prior then BacktestEngine.BUY else BacktestEngine.SELL
  | _ => BacktestEngine.SELL
  end.

(** The symbol whose table entry a call of the risk manager can write,
    if any. *)
Definition written_symbol (c : RiskManager.call) : option string :=
  match c with
  | RiskManager.AddPosition sym _ _ _ | RiskManager.ClosePosition sym _ => Some sym
  | _ => None
  end.

(** The number of SELL answers among the signals of a run. *)
Definition sell_count (sigs : list BacktestEngine.Signal) : nat :=
  length (List.filter
            (fun s => match s with BacktestEngine.SELL => true | _ => false end)
            sigs).

(** Twice the closed trades, plus one for a position still open: what
    the loop has consumed at least in rows. *)
Definition rows_used (st : BacktestEngine.State) : nat :=
  2 * length (BacktestEngine.trades st)
  + match BacktestEngine.position st with Some _ => 1 | None => 0 end.



(** The key under which [calculate_moving_averages] stores a period. *)
Definition ma_key (period : nat) : string := "MA" +:+ pretty period.


(** The decay factor [1 - alpha] of an exponential average of the given
    span. *)
Definition ewm_decay (span : nat) : Q :=
  (1 - 2 / (inject_Z (Z.of_nat span) + 1))%Q.

(** An entry of the account listing that [get_account_balance] keeps:
    both amounts parse and one of them is positive. *)
Definition holds_funds (float : string -> option Q)
    (e : BinanceClient.AssetBalance) : Prop :=
  exists f l,
    float (BinanceClient.free e) = Some f
    /\ float (BinanceClient.locked e) = Some l
    /\ ((0 < f)%Q \/ (0 < l)%Q).

(** Both amounts of the entry parse. *)
Definition parses (float : string -> option Q)
    (e : BinanceClient.AssetBalance) : Prop :=
  is_Some (float (BinanceClient.free e))
  /\ is_Some (float (BinanceClient.locked e)).

(** Vocabulary for the binary64 embedding. *)
Import PrimFloat.





(** The binary64 operation [op] gives on [a] and [b] the number that the
    exact operation [ideal] gives on the numbers they stand for: the
    result is not rounded, and neither underflows nor overflows. *)
Definition exact (op : float -> float -> float)
    (ideal : fval -> fval -> fval) (a b : float) : Prop :=
  feq (Binary64.value (op a b)) (ideal (Binary64.value a) (Binary64.value b))
  = true.



End Spec.

(* ===================================================================== *)
(** ** Auxiliary facts on rational comparisons *)
(* ===================================================================== *)

Section Comparisons.
Import Float Python.
Local Open Scope Q_scope.

Lemma Qltb_true (a b : Q) : Qltb a b = true <-> a < b.
Proof.
  unfold Qltb. rewrite Qlt_alt. destruct (a ?= b); split; congruence.
Qed.

Lemma Qltb_false (a b : Q) : Qltb a b = false <-> b <= a.
Proof.
  split; intros H.
  - apply Qnot_lt_le. intros Hlt. apply Qltb_true in Hlt. congruence.
  - destruct (Qltb a b) eqn:E; [|reflexivity].
    apply Qltb_true in E. exfalso. apply (Qlt_not_le _ _ E H).
Qed.

Lemma Qeq_bool_false (a b : Q) : Qeq_bool a b = false <-> ~ a == b.
Proof.
  split.
  - intros H Heq. apply Qeq_bool_iff in Heq. congruence.
  - intros H. destruct (Qeq_bool a b) eqn:E; [|reflexivity].
    apply Qeq_bool_iff in E. contradiction.
Qed.

Lemma Qle_bool_false (a b : Q) : Qle_bool a b = false <-> b < a.
Proof.
  split; intros H.
  - apply Qnot_le_lt. intros Hle. apply Qle_bool_iff in Hle. congruence.
  - destruct (Qle_bool a b) eqn:E; [|reflexivity].
    apply Qle_bool_iff in E. exfalso. apply (Qlt_not_le _ _ H E).
Qed.

Lemma py_min_is_Qmin (a b : Q) : py_min a b == Qmin a b.
Proof.
  unfold py_min. destruct (Qltb b a) eqn:E.
  - apply Qltb_true in E. symmetry. apply Q.min_r. apply Qlt_le_weak, E.
  - apply Qltb_false in E. symmetry. apply Q.min_l. exact E.
Qed.

End Comparisons.

(* ===================================================================== *)
(** ** The risk manager *)
(* ===================================================================== *)

Section RiskManagerProperties.
Import Float Python RiskManager Spec.
Local Open Scope Q_scope.
Local Arguments Qabs : simpl never.
Local Arguments Qmult : simpl never.
Local Arguments Qplus : simpl never.
Local Arguments Qminus : simpl never.

(** Unfolds the method monad down to the pair of outcome and instance. *)
Ltac run_method :=
  unfold calculate_position_size, can_open_position, add_position,
    check_stop_loss, check_take_profit, close_position;
  unfold mbind, M_bind, mret, M_ret, get_self, lift, set_current_loss,
    set_positions, truediv; cbn beta iota.

Lemma current_loss_after_close (self : RiskManager.t) (sym : string) (exit_price : Q) :
  current_loss self <= current_loss (snd (close_position sym exit_price self)).
Proof.
  run_method.
  destruct (positions self !! sym) as [pos|]; cbn; [|apply Qle_refl].
  destruct (Qeq_bool (entry_price pos) 0); cbn; [apply Qle_refl|].
  destruct (Qltb _ 0); cbn [snd current_loss]; [|apply Qle_refl].
  pose proof (Qabs_nonneg ((exit_price - entry_price pos) * quantity pos)).
  lra.
Qed.

Lemma current_loss_after (self : RiskManager.t) (c : call) :
  current_loss self <= current_loss (after self c).
Proof.
  destruct c; cbn [after].
  - run_method. destruct (Qeq_bool _ 0); cbn; apply Qle_refl.
  - run_method. destruct (Qle_bool _ _); [|destruct (Qltb _ _)]; cbn; apply Qle_refl.
  - run_method. cbn. apply Qle_refl.
  - run_method. destruct (positions self !! symbol0) as [pos|]; cbn; [|apply Qle_refl].
    destruct (Qle_bool _ _); cbn; apply Qle_refl.
  - run_method. destruct (positions self !! symbol0) as [pos|]; cbn; [|apply Qle_refl].
    destruct (Qle_bool _ _); cbn; apply Qle_refl.
  - apply current_loss_after_close.
Qed.

Lemma after_all_snoc (self : RiskManager.t) (cs : list call) (c : call) :
  after_all self (cs ++ [c]) = after (after_all self cs) c.
Proof. unfold after_all. now rewrite foldl_app. Qed.

Lemma current_loss_after_all (self : RiskManager.t) (cs : list call) :
  current_loss self <= current_loss (after_all self cs).
Proof.
  induction cs as [|c cs IH] using rev_ind.
  - apply Qle_refl.
  - rewrite after_all_snoc. eapply Qle_trans; [exact IH|apply current_loss_after].
Qed.

(** C5.  For a strictly positive [stop_loss_pct], [calculate_position_size]
    returns the minimum of [balance * risk_per_trade / stop_loss_pct] and
    [balance * max_position_size], hence at most [balance * max_position_size],
    and does not touch the instance; with balance 10000, risk 0.02, stop 0.02
    and the default limits the result is 1000. *)
Theorem calculate_position_size_capped
    (self : RiskManager.t) (account_balance risk_per_trade stop_loss_pct : Q) :
  0 < stop_loss_pct ->
  (exists size,
      calculate_position_size account_balance risk_per_trade stop_loss_pct self
        = (Returned size, self)
      /\ size == Qmin (account_balance * risk_per_trade / stop_loss_pct)
                      (account_balance * max_position_size self)
      /\ size <= account_balance * max_position_size self)
  /\ (exists size,
        calculate_position_size 10000 (2 # 100) (2 # 100) init_default
          = (Returned size, init_default)
        /\ size == 1000).
Proof.
  intros Hpos. split.
  - run_method.
    assert (Hnz : Qeq_bool stop_loss_pct 0 = false).
    { apply Qeq_bool_false. intros Hz. rewrite Hz in Hpos. now apply Qlt_irrefl in Hpos. }
    rewrite Hnz. eexists. split; [reflexivity|]. split.
    + apply py_min_is_Qmin.
    + rewrite py_min_is_Qmin. apply Q.le_min_r.
  - eexists. split; [vm_compute; reflexivity|]. reflexivity.
Qed.

Lemma calculate_position_size_capped_witness :
  exists size,
    calculate_position_size 5000 (1 # 100) (4 # 100) init_default
      = (Returned size, init_default)
    /\ size == 500.
Proof.
  destruct (calculate_position_size_capped init_default 5000 (1 # 100) (4 # 100))
    as [[size [Hrun [Hmin Hcap]]] _].
  - reflexivity.
  - exists size. split; [exact Hrun|].
    rewrite Hmin. vm_compute. reflexivity.
Defined.

(** C6.  Closing a symbol that has no open position returns the empty
    result, raises nothing, and leaves the whole instance as it was: the
    loss accumulator and the position table are unchanged. *)
Theorem close_position_absent
    (self : RiskManager.t) (sym : string) (exit_price : Q) :
  positions self !! sym = None ->
  close_position sym exit_price self = (Returned None, self).
Proof.
  intros Habsent. run_method. now rewrite Habsent.
Qed.

Lemma close_position_absent_witness :
  close_position "ETHUSDT" 1800
    (snd (add_position "BTCUSDT" 100 2 95 init_default))
  = (Returned None, snd (add_position "BTCUSDT" 100 2 95 init_default)).
Proof.
  apply close_position_absent. vm_compute. reflexivity.
Defined.

(** C7.  The loss accumulator never decreases: every single call leaves
    [current_loss] at least as large as before, at every point of every
    call sequence, so its value after any sequence is at least the initial
    one (and at least 0 from a fresh instance); no call resets it. *)
Theorem current_loss_monotone :
  (forall (self : RiskManager.t) (c : call),
      current_loss self <= current_loss (after self c))
  /\ (forall (self : RiskManager.t) (cs : list call) (c : call),
        current_loss (after_all self cs)
        <= current_loss (after_all self (cs ++ [c])))
  /\ (forall (self : RiskManager.t) (cs more : list call),
        current_loss (after_all self cs)
        <= current_loss (after_all self (cs ++ more)))
  /\ (forall (mdl mps ml : Q) (cs : list call),
        0 <= current_loss (after_all (init mdl mps ml) cs)).
Proof.
  split; [exact current_loss_after|]. split; [|split].
  - intros self cs c. rewrite after_all_snoc. apply current_loss_after.
  - intros self cs more. unfold after_all. rewrite foldl_app.
    apply current_loss_after_all.
  - intros mdl mps ml cs.
    apply (current_loss_after_all (init mdl mps ml) cs).
Qed.

(** C10.  The answer of [can_open_position] is a function of the proposed
    size, the balance, the accumulated loss and the two limits only: two
    calls that agree on these give the same answer whatever the symbols
    and the position tables are; the call changes nothing; and opening a
    position for the symbol beforehand does not change the answer. *)
Theorem can_open_position_inputs
    (self1 self2 : RiskManager.t) (sym1 sym2 : string)
    (size1 size2 balance1 balance2 : Q) :
  size1 == size2 ->
  balance1 == balance2 ->
  current_loss self1 == current_loss self2 ->
  max_daily_loss self1 == max_daily_loss self2 ->
  max_position_size self1 == max_position_size self2 ->
  fst (can_open_position sym1 size1 balance1 self1)
    = fst (can_open_position sym2 size2 balance2 self2)
  /\ snd (can_open_position sym1 size1 balance1 self1) = self1
  /\ (forall entry qty stop,
        fst (can_open_position sym1 size1 balance1
               (snd (add_position sym1 entry qty stop self1)))
        = fst (can_open_position sym1 size1 balance1 self1)).
Proof.
  intros Hsize Hbal Hloss Hmdl Hmps. split; [|split].
  - run_method.
    assert (E1 : Qle_bool (balance1 * max_daily_loss self1) (current_loss self1)
                 = Qle_bool (balance2 * max_daily_loss self2) (current_loss self2)).
    { apply eq_true_iff_eq. rewrite !Qle_bool_iff, Hbal, Hmdl, Hloss. reflexivity. }
    assert (E2 : Qltb (balance1 * max_position_size self1) size1
                 = Qltb (balance2 * max_position_size self2) size2).
    { apply eq_true_iff_eq. rewrite !Qltb_true, Hbal, Hmps, Hsize. reflexivity. }
    rewrite E1, E2. clear E1 E2.
    destruct (Qle_bool _ _); [|destruct (Qltb _ _)]; reflexivity.
  - run_method. destruct (Qle_bool _ _); [|destruct (Qltb _ _)]; reflexivity.
  - intros entry qty stop. run_method. cbn.
    destruct (Qle_bool _ _); [|destruct (Qltb _ _)]; reflexivity.
Qed.

Lemma can_open_position_inputs_witness :
  fst (can_open_position "BTCUSDT" 500 10000
         (snd (add_position "BTCUSDT" 100 2 95 init_default)))
  = fst (can_open_position "ETHUSDT" (1000 # 2) (20000 # 2) init_default).
Proof.
  apply (can_open_position_inputs
           (snd (add_position "BTCUSDT" 100 2 95 init_default)) init_default
           "BTCUSDT" "ETHUSDT" 500 (1000 # 2) 10000 (20000 # 2));
    reflexivity.
Defined.

(** X2.  Closing an open position: the pnl is [(exit - entry) * quantity], the
    percentage is [(exit - entry) / entry * 100], a negative pnl is added in
    absolute value to the loss accumulator, and the position is removed. *)
Theorem close_position_realises_pnl
    (self : RiskManager.t) (sym : string) (exit_price : Q) (pos : Position) :
  positions self !! sym = Some pos ->
  ~ entry_price pos == 0 ->
  exists trade self',
    close_position sym exit_price self = (Returned (Some trade), self')
    /\ symbol trade = sym
    /\ pnl trade = (exit_price - entry_price pos) * quantity pos
    /\ pnl_pct trade = (exit_price - entry_price pos) / entry_price pos * 100
    /\ closed_quantity trade = quantity pos
    /\ positions self' = delete sym (positions self)
    /\ (pnl trade < 0 -> current_loss self' = current_loss self + Qabs (pnl trade))
    /\ (0 <= pnl trade -> current_loss self' = current_loss self).
Proof.
  intros Hpos Hentry. run_method. rewrite Hpos.
  rewrite (proj2 (Qeq_bool_false _ 0) Hentry).
  destruct (Qltb ((exit_price - entry_price pos) * quantity pos) 0) eqn:E.
  - apply Qltb_true in E. eexists. eexists. split; [reflexivity|].
    cbn. repeat split. intros Hge. exfalso. apply (Qlt_not_le _ _ E Hge).
  - apply Qltb_false in E. eexists. eexists. split; [reflexivity|].
    cbn. repeat split. intros Hlt. exfalso. apply (Qlt_not_le _ _ Hlt E).
Qed.

Lemma close_position_realises_pnl_witness :
  exists trade self',
    close_position "BTCUSDT" 90
      (snd (add_position "BTCUSDT" 100 2 95 init_default))
    = (Returned (Some trade), self')
    /\ pnl trade == - 20
    /\ current_loss self' == 20.
Proof.
  destruct (close_position_realises_pnl
              (snd (add_position "BTCUSDT" 100 2 95 init_default)) "BTCUSDT" 90
              {| entry_price := 100; quantity := 2; stop_loss := 95;
                 take_profit := 100 * (105 # 100) |})
    as (trade & self' & Hrun & _ & Hpnl & _ & _ & _ & Hloss & _).
  - vm_compute. reflexivity.
  - discriminate.
  - exists trade, self'. split; [exact Hrun|].
    split; [rewrite Hpnl; reflexivity|].
    rewrite Hloss; [rewrite Hpnl; reflexivity|rewrite Hpnl; reflexivity].
Defined.

(** X1.  Opening a position and closing it at the entry price gives a pnl and
    a percentage of 0 and leaves the accumulator as it was, provided the
    price is not 0 (the percentage divides by the entry price). *)
Theorem open_then_close_same_price
    (self : RiskManager.t) (sym : string) (price qty stop : Q) :
  ~ price == 0 ->
  exists trade self',
    close_position sym price (snd (add_position sym price qty stop self))
    = (Returned (Some trade), self')
    /\ pnl trade == 0
    /\ pnl_pct trade == 0
    /\ current_loss self' = current_loss self
    /\ positions self' !! sym = None.
Proof.
  intros Hprice. run_method. cbn [snd positions].
  rewrite lookup_insert_eq. cbn [entry_price quantity].
  rewrite (proj2 (Qeq_bool_false price 0) Hprice).
  assert (Hzero : (price - price) * qty == 0) by ring.
  assert (Hnoloss : Qltb ((price - price) * qty) 0 = false).
  { apply Qltb_false. rewrite Hzero. apply Qle_refl. }
  rewrite Hnoloss. eexists. eexists. split; [reflexivity|].
  cbn [pnl pnl_pct current_loss positions].
  split; [exact Hzero|]. split; [field; exact Hprice|].
  split; [reflexivity|apply lookup_delete_eq].
Qed.

Lemma open_then_close_same_price_witness :
  exists trade self',
    close_position "BTCUSDT" 100
      (snd (add_position "BTCUSDT" 100 2 95 init_default))
    = (Returned (Some trade), self')
    /\ pnl trade == 0
    /\ pnl_pct trade == 0
    /\ current_loss self' = current_loss init_default
    /\ positions self' !! "BTCUSDT" = None.
Proof.
  apply (open_then_close_same_price init_default "BTCUSDT" 100 2 95).
  discriminate.
Defined.

(** X3.  With an entry price of 0 the percentage cannot be computed: closing
    raises [ZeroDivisionError] and the position stays open. *)
Theorem close_position_zero_entry
    (self : RiskManager.t) (sym : string) (qty stop exit_price : Q) :
  close_position sym exit_price (snd (add_position sym 0 qty stop self))
  = (Raised ZeroDivisionError, snd (add_position sym 0 qty stop self)).
Proof.
  run_method. cbn [snd positions]. rewrite lookup_insert_eq. reflexivity.
Qed.

(** X4.  [add_position] stores the position with a take-profit 5% above the
    entry, replacing any position already open for the symbol, and leaves
    the other symbols and the accumulator alone. *)
Theorem add_position_overwrites
    (self : RiskManager.t) (sym other : string) (entry qty stop : Q) :
  fst (add_position sym entry qty stop self) = Returned tt
  /\ positions (snd (add_position sym entry qty stop self)) !! sym
     = Some {| entry_price := entry; quantity := qty; stop_loss := stop;
               take_profit := entry * (105 # 100) |}
  /\ (sym <> other ->
      positions (snd (add_position sym entry qty stop self)) !! other
      = positions self !! other)
  /\ current_loss (snd (add_position sym entry qty stop self)) = current_loss self.
Proof.
  run_method. cbn. split; [reflexivity|]. split; [apply lookup_insert_eq|].
  split; [|reflexivity]. intros Hne. now apply lookup_insert_ne.
Qed.

(** X5.  The two triggers answer true exactly when a position is open for the
    symbol and the price is at or beyond its threshold; they change
    nothing. *)
Theorem triggers_characterised
    (self : RiskManager.t) (sym : string) (price : Q) :
  (check_stop_loss sym price self = (Returned true, self)
   <-> exists pos, positions self !! sym = Some pos /\ price <= stop_loss pos)
  /\ (check_take_profit sym price self = (Returned true, self)
      <-> exists pos, positions self !! sym = Some pos /\ take_profit pos <= price)
  /\ snd (check_stop_loss sym price self) = self
  /\ snd (check_take_profit sym price self) = self.
Proof.
  run_method. destruct (positions self !! sym) as [pos|].
  - split; [|split; [|split]].
    + destruct (Qle_bool price (stop_loss pos)) eqn:E; split.
      * intros _. exists pos. split; [reflexivity|now apply Qle_bool_iff].
      * reflexivity.
      * discriminate.
      * intros (pos' & Heq & Hle). injection Heq as <-.
        apply Qle_bool_iff in Hle. congruence.
    + destruct (Qle_bool (take_profit pos) price) eqn:E; split.
      * intros _. exists pos. split; [reflexivity|now apply Qle_bool_iff].
      * reflexivity.
      * discriminate.
      * intros (pos' & Heq & Hle). injection Heq as <-.
        apply Qle_bool_iff in Hle. congruence.
    + now destruct (Qle_bool price (stop_loss pos)).
    + now destruct (Qle_bool (take_profit pos) price).
  - repeat split; try reflexivity; try discriminate;
      intros (pos' & Heq & _); discriminate.
Qed.

(** X9.  [can_open_position] accepts exactly when the accumulated loss is
    below [balance * max_daily_loss] and the proposed size is at most
    [balance * max_position_size]. *)
Theorem can_open_position_accepts
    (self : RiskManager.t) (sym : string) (position_size account_balance : Q) :
  can_open_position sym position_size account_balance self = (Returned true, self)
  <-> current_loss self < account_balance * max_daily_loss self
      /\ position_size <= account_balance * max_position_size self.
Proof.
  run_method.
  destruct (Qle_bool (account_balance * max_daily_loss self) (current_loss self)) eqn:E1.
  - apply Qle_bool_iff in E1. split; [discriminate|].
    intros [Hlt _]. exfalso. apply (Qlt_not_le _ _ Hlt E1).
  - apply Qle_bool_false in E1.
    destruct (Qltb (account_balance * max_position_size self) position_size) eqn:E2.
    + apply Qltb_true in E2. split; [discriminate|].
      intros [_ Hle]. exfalso. apply (Qlt_not_le _ _ E2 Hle).
    + apply Qltb_false in E2. split; [auto|reflexivity].
Qed.

Lemma limits_after (self : RiskManager.t) (c : call) :
  max_daily_loss (after self c) = max_daily_loss self
  /\ max_position_size (after self c) = max_position_size self
  /\ max_leverage (after self c) = max_leverage self.
Proof.
  destruct c; cbn [after]; run_method.
  - destruct (Qeq_bool _ 0); cbn; auto.
  - destruct (Qle_bool _ _); [|destruct (Qltb _ _)]; cbn; auto.
  - cbn. auto.
  - destruct (positions self !! symbol0); [destruct (Qle_bool _ _)|]; cbn; auto.
  - destruct (positions self !! symbol0); [destruct (Qle_bool _ _)|]; cbn; auto.
  - destruct (positions self !! symbol0); cbn; auto.
    destruct (Qeq_bool _ 0); cbn; auto.
    destruct (Qltb _ 0); cbn; auto.
Qed.

Lemma limits_after_all (self : RiskManager.t) (cs : list call) :
  max_daily_loss (after_all self cs) = max_daily_loss self
  /\ max_position_size (after_all self cs) = max_position_size self
  /\ max_leverage (after_all self cs) = max_leverage self.
Proof.
  induction cs as [|c cs IH] using rev_ind; [auto|].
  rewrite after_all_snoc.
  destruct (limits_after (after_all self cs) c) as (-> & -> & ->). exact IH.
Qed.

(** X10.  Once the accumulated loss has reached [balance * max_daily_loss],
    no sequence of calls makes [can_open_position] accept again for that
    balance: the accumulator only grows and no call changes the limit, so
    the lock-out lasts for the life of the instance. *)
Theorem loss_lockout_permanent
    (self : RiskManager.t) (cs : list call) (sym : string)
    (position_size account_balance : Q) :
  account_balance * max_daily_loss self <= current_loss self ->
  can_open_position sym position_size account_balance (after_all self cs)
  = (Returned false, after_all self cs).
Proof.
  intros Hlocked. run_method.
  destruct (limits_after_all self cs) as (-> & _ & _).
  pose proof (current_loss_after_all self cs) as Hmono.
  rewrite (proj2 (Qle_bool_iff _ _)); [reflexivity|].
  eapply Qle_trans; eassumption.
Qed.

Lemma loss_lockout_permanent_witness :
  can_open_position "ETHUSDT" 1 1000
    (after_all init_default
       [AddPosition "BTCUSDT" 100 2 0; ClosePosition "BTCUSDT" 70;
        AddPosition "BTCUSDT" 70 1 0; ClosePosition "BTCUSDT" 90])
  = (Returned false,
     after_all init_default
       [AddPosition "BTCUSDT" 100 2 0; ClosePosition "BTCUSDT" 70;
        AddPosition "BTCUSDT" 70 1 0; ClosePosition "BTCUSDT" 90]).
Proof.
  apply (loss_lockout_permanent
           (after_all init_default
              [AddPosition "BTCUSDT" 100 2 0; ClosePosition "BTCUSDT" 70])
           [AddPosition "BTCUSDT" 70 1 0; ClosePosition "BTCUSDT" 90]
           "ETHUSDT" 1 1000).
  vm_compute. discriminate.
Defined.

(** X11.  A call never changes the configured limits, and it leaves the
    table entry of every symbol other than the one it adds or closes as it
    was; the sizing, gating and trigger calls change no entry at all. *)
Theorem calls_touch_only_their_symbol
    (self : RiskManager.t) (c : call) (other : string) :
  max_daily_loss (after self c) = max_daily_loss self
  /\ max_position_size (after self c) = max_position_size self
  /\ max_leverage (after self c) = max_leverage self
  /\ (written_symbol c <> Some other ->
      positions (after self c) !! other = positions self !! other).
Proof.
  destruct (limits_after self c) as (H1 & H2 & H3).
  repeat (split; [assumption|]). clear H1 H2 H3.
  destruct c; cbn [after written_symbol]; run_method; intros Hother.
  - destruct (Qeq_bool _ 0); reflexivity.
  - destruct (Qle_bool _ _); [|destruct (Qltb _ _)]; reflexivity.
  - cbn. apply lookup_insert_ne. congruence.
  - destruct (positions self !! symbol0); [destruct (Qle_bool _ _)|]; reflexivity.
  - destruct (positions self !! symbol0); [destruct (Qle_bool _ _)|]; reflexivity.
  - destruct (positions self !! symbol0); [|reflexivity].
    destruct (Qeq_bool _ 0); [reflexivity|].
    destruct (Qltb _ 0); cbn; apply lookup_delete_ne; congruence.
Qed.

(** X12.  After a position was closed, closing the same symbol again
    returns the empty result and changes nothing: a trade is realised
    once. *)
Theorem close_position_once
    (self self' : RiskManager.t) (sym : string) (exit_price again : Q)
    (trade : ClosedTrade) :
  close_position sym exit_price self = (Returned (Some trade), self') ->
  close_position sym again self' = (Returned None, self').
Proof.
  intros Hclose.
  assert (Hgone : positions self' !! sym = None).
  { revert Hclose. run_method.
    destruct (positions self !! sym) as [pos|]; [|discriminate].
    destruct (Qeq_bool _ 0); [discriminate|].
    destruct (Qltb _ 0); cbn; intros H; injection H as _ <-; cbn;
      apply lookup_delete_eq. }
  run_method. now rewrite Hgone.
Qed.

Lemma close_position_once_witness :
  close_position "BTCUSDT" 80
    (snd (close_position "BTCUSDT" 90
            (snd (add_position "BTCUSDT" 100 2 95 init_default))))
  = (Returned None,
     snd (close_position "BTCUSDT" 90
            (snd (add_position "BTCUSDT" 100 2 95 init_default)))).
Proof.
  apply (close_position_once
           (snd (add_position "BTCUSDT" 100 2 95 init_default))
           (snd (close_position "BTCUSDT" 90
                   (snd (add_position "BTCUSDT" 100 2 95 init_default))))
           "BTCUSDT" 90 80
           {| symbol := "BTCUSDT"; pnl := (90 - 100) * 2;
              pnl_pct := (90 - 100) / 100 * 100; closed_quantity := 2 |}).
  vm_compute. reflexivity.
Defined.

(** X13.  The size computed by [calculate_position_size] always passes
    the size check of [can_open_position] for the same balance: with a
    positive [stop_loss_pct] and the loss limit not reached, the proposed
    position is accepted. *)
Theorem computed_size_is_accepted
    (self : RiskManager.t) (sym : string)
    (account_balance risk_per_trade stop_loss_pct : Q) :
  0 < stop_loss_pct ->
  current_loss self < account_balance * max_daily_loss self ->
  exists size,
    calculate_position_size account_balance risk_per_trade stop_loss_pct self
    = (Returned size, self)
    /\ can_open_position sym size account_balance self = (Returned true, self).
Proof.
  intros Hstop Hloss. run_method.
  rewrite (proj2 (Qeq_bool_false stop_loss_pct 0)) by lra.
  eexists. split; [reflexivity|].
  rewrite (proj2 (Qle_bool_false _ _) Hloss).
  rewrite (proj2 (Qltb_false _ _)); [reflexivity|].
  rewrite py_min_is_Qmin. apply Q.le_min_r.
Qed.

Lemma computed_size_is_accepted_witness :
  exists size,
    calculate_position_size 10000 (2 # 100) (2 # 100) init_default
    = (Returned size, init_default)
    /\ can_open_position "BTCUSDT" size 10000 init_default
       = (Returned true, init_default).
Proof.
  apply (computed_size_is_accepted init_default "BTCUSDT" 10000 (2 # 100) (2 # 100));
    reflexivity.
Defined.

(** X14.  Right after [add_position], the stop-loss trigger fires exactly
    for prices at or below the given stop, and the take-profit trigger
    exactly for prices at or above 1.05 times the entry. *)
Theorem triggers_after_add
    (self : RiskManager.t) (sym : string) (entry qty stop price : Q) :
  (fst (check_stop_loss sym price (snd (add_position sym entry qty stop self)))
   = Returned true <-> price <= stop)
  /\ (fst (check_take_profit sym price (snd (add_position sym entry qty stop self)))
      = Returned true <-> entry * (105 # 100) <= price).
Proof.
  run_method. cbn [snd positions]. rewrite lookup_insert_eq.
  cbn [stop_loss take_profit]. split.
  - destruct (Qle_bool price stop) eqn:E; cbn.
    + apply Qle_bool_iff in E. tauto.
    + apply Qle_bool_false in E. split; [discriminate|].
      intros H. exfalso. apply (Qlt_not_le _ _ E H).
  - destruct (Qle_bool (entry * (105 # 100)) price) eqn:E; cbn.
    + apply Qle_bool_iff in E. tauto.
    + apply Qle_bool_false in E. split; [discriminate|].
      intros H. exfalso. apply (Qlt_not_le _ _ E H).
Qed.

End RiskManagerProperties.

(* ===================================================================== *)
(** ** The backtest engine *)
(* ===================================================================== *)

Section BacktestProperties.
Import Float Python BacktestEngine Spec.
Local Open Scope Q_scope.
Local Arguments Qmult : simpl never.
Local Arguments Qplus : simpl never.
Local Arguments Qminus : simpl never.
Local Arguments Qdiv : simpl never.
Local Arguments Qopp : simpl never.
Local Arguments inject_Z : simpl never.

Lemma foldl_rows_steps (whole rows : DataFrame) (f : DataFrame -> Signal) (st : State) :
  foldl (fun st '(idx, row) => on_row st (signal_at whole f idx) row) st rows
  = run_steps st (zip (map (fun r => signal_at whole f (fst r)) rows) (map snd rows)).
Proof.
  revert st. induction rows as [|[idx row] rest IH]; intros st; [reflexivity|].
  cbn. apply IH.
Qed.

Lemma run_loop_steps (C : Q) (df : DataFrame) (f : DataFrame -> Signal) :
  run_loop C df f
  = run_steps {| balance := Py C; position := None; trades := [] |}
      (zip (signals df f) (map snd df)).
Proof. apply foldl_rows_steps. Qed.

Lemma on_row_balanced (C : Q) (st : State) (s : Signal) (row : Row) :
  balanced C st -> balanced C (on_row st s row).
Proof.
  unfold balanced, on_row. intros H.
  destruct s, (position st) as [pos|]; cbn; try exact H.
  rewrite foldl_app. cbn. now rewrite H.
Qed.

Lemma run_steps_balanced (C : Q) (steps : list (Signal * Row)) (st : State) :
  balanced C st -> balanced C (run_steps st steps).
Proof.
  revert st. induction steps as [|[s row] steps IH]; intros st H; [exact H|].
  apply IH. now apply on_row_balanced.
Qed.

Lemma run_loop_balanced (C : Q) (df : DataFrame) (f : DataFrame -> Signal) :
  balanced C (run_loop C df f).
Proof. rewrite run_loop_steps. now apply run_steps_balanced. Qed.

Lemma of_nat_S_nonzero (n : nat) :
  Qeq_bool (inject_Z (Z.of_nat (S n))) 0 = false.
Proof.
  apply Qeq_bool_false. unfold Qeq, inject_Z. cbn [Qnum Qden]. lia.
Qed.

Lemma compute_win_rate_returns (log : list fval) :
  exists w, compute_win_rate log = Returned w.
Proof.
  destruct log as [|t log]; [now exists (Py 0)|].
  unfold compute_win_rate, num_div, truediv.
  change (length (t :: log)) with (S (length log)).
  rewrite of_nat_S_nonzero. eauto.
Qed.

Lemma run_backtest_returns (C : Q) (df : DataFrame) (f : DataFrame -> Signal) :
  ~ C == 0 \/ trades (run_loop C df f) <> [] ->
  exists r, run_backtest C df f = Returned r
            /\ final_balance r = balance (run_loop C df f)
            /\ trade_count r = length (trades (run_loop C df f))
            /\ compute_win_rate (trades (run_loop C df f)) = Returned (win_rate r).
Proof.
  intros Hok. unfold run_backtest.
  destruct (compute_win_rate_returns (trades (run_loop C df f))) as [w Hw].
  assert (Hdiv : exists q, num_div (num_sub (balance (run_loop C df f)) (Py C)) (Py C)
                           = Returned q).
  { destruct (balance (run_loop C df f)) as [b|v] eqn:Hb; cbn; [|eauto].
    unfold truediv. destruct (Qeq_bool C 0) eqn:HC; [|eauto].
    exfalso. destruct Hok as [Hnz|Hlog].
    - apply Hnz. now apply Qeq_bool_iff.
    - apply Hlog. clear HC.
      rewrite run_loop_steps in Hb |- *.
      revert Hb. generalize (zip (signals df f) (map snd df)).
      intros steps.
      assert (G : forall st, (forall b', balance st = Py b' -> trades st = []) ->
                  forall b', balance (run_steps st steps) = Py b' ->
                  trades (run_steps st steps) = []).
      { induction steps as [|[s row] steps IH]; intros st Hst; [exact Hst|].
        apply IH. intros b'. unfold on_row.
        destruct s, (position st); cbn; try apply Hst; discriminate. }
      apply G. intros; reflexivity. }
  destruct Hdiv as [q Hq]. rewrite Hq, Hw. eexists. cbn. eauto.
Qed.

(** C9.  The win-rate expression never divides by zero: it returns for
    every trade log, and on the empty log it is the guarded value 0.  So a
    report with no closed trade has win rate 0, and such a report is
    produced whenever the initial capital is not zero. *)
Theorem win_rate_zero_without_trades
    (C : Q) (df : DataFrame) (f : DataFrame -> Signal) :
  (forall log, exists w, compute_win_rate log = Returned w)
  /\ compute_win_rate [] = Returned (Py 0)
  /\ (forall r, run_backtest C df f = Returned r ->
                trade_count r = 0%nat -> win_rate r = Py 0)
  /\ (~ C == 0 -> trades (run_loop C df f) = [] ->
      exists r, run_backtest C df f = Returned r
                /\ trade_count r = 0%nat /\ win_rate r = Py 0).
Proof.
  split; [exact compute_win_rate_returns|]. split; [reflexivity|]. split.
  - intros r Hrun Hcount. unfold run_backtest in Hrun.
    destruct (num_div _ _) as [ratio|e]; [|discriminate].
    destruct (compute_win_rate _) as [w|e] eqn:Hw; [|discriminate].
    injection Hrun as <-. cbn in Hcount |- *.
    destruct (trades (run_loop C df f)); [|discriminate].
    cbn in Hw. congruence.
  - intros HC Hlog.
    destruct (run_backtest_returns C df f (or_introl HC)) as (r & Hrun & _ & Hcount & Hw).
    exists r. rewrite Hlog in Hcount, Hw. cbn in Hw. split; [exact Hrun|].
    split; [exact Hcount|congruence].
Qed.

Lemma state_after_all (C : Q) (df : DataFrame) (f : DataFrame -> Signal) :
  state_after C df f (length df) = run_loop C df f.
Proof. unfold state_after, run_loop. now rewrite firstn_all. Qed.

(** An open position that meets no SELL stays, with the balance and the
    trade log, through the rest of the loop. *)
Lemma loop_keeps_open
    (whole rows : DataFrame) (f : DataFrame -> Signal) (st : State) (pos : Position) :
  position st = Some pos ->
  Forall (fun r => signal_at whole f (fst r) <> SELL) rows ->
  foldl (fun st '(idx, row) => on_row st (signal_at whole f idx) row) st rows = st.
Proof.
  intros Hpos Hns. induction Hns as [|[idx row] rest Hs _ IH]; [reflexivity|].
  cbn [foldl]. cbn [fst] in Hs.
  replace (on_row st (signal_at whole f idx) row) with st; [exact IH|].
  unfold on_row. rewrite Hpos. now destruct (signal_at whole f idx).
Qed.

(** A position that is open after some rows was opened by a BUY at one of
    them, at its close and with the whole balance, and met no SELL since. *)
Lemma loop_open_origin
    (whole rows : DataFrame) (f : DataFrame -> Signal) (st0 : State) (pos : Position) :
  position st0 = None ->
  position (foldl (fun st '(idx, row) => on_row st (signal_at whole f idx) row)
              st0 rows) = Some pos ->
  exists pre idx row post,
    rows = pre ++ (idx, row) :: post
    /\ signal_at whole f idx = BUY
    /\ position (foldl (fun st '(idx, row) => on_row st (signal_at whole f idx) row)
                   st0 pre) = None
    /\ Forall (fun r => signal_at whole f (fst r) <> SELL) post
    /\ pos = {| entry := close row;
                size := fdiv (to_np (balance
                          (foldl (fun st '(idx, row) =>
                                    on_row st (signal_at whole f idx) row) st0 pre)))
                          (close row) |}.
Proof.
  intros Hnone. induction rows as [|[idx row] rows IH] using rev_ind; intros Hopen.
  - cbn in Hopen. congruence.
  - rewrite foldl_app in Hopen.
    set (prev := foldl _ st0 rows) in *. cbn [foldl] in Hopen.
    destruct (position prev) as [p|] eqn:Hp.
    + assert (Hs : signal_at whole f idx <> SELL).
      { intros Hs. unfold on_row in Hopen. rewrite Hs, Hp in Hopen. discriminate. }
      assert (Hsame : Some p = Some pos).
      { rewrite <- Hopen. unfold on_row. rewrite Hp.
        now destruct (signal_at whole f idx). }
      destruct (IH Hsame) as (pre & idx' & row' & post & -> & Hbuy & Hpre & Hpost & Heq).
      exists pre, idx', row', (post ++ [(idx, row)]).
      split; [now rewrite <- app_assoc|]. split; [exact Hbuy|].
      split; [exact Hpre|]. split; [|exact Heq].
      apply Forall_app. split; [exact Hpost|]. now repeat constructor.
    + exists rows, idx, row, []. split; [reflexivity|].
      unfold on_row in Hopen. rewrite Hp in Hopen.
      destruct (signal_at whole f idx) eqn:Hs; cbn in Hopen; try congruence.
      split; [reflexivity|]. split; [exact Hp|]. split; [constructor|].
      injection Hopen as <-. reflexivity.
Qed.

(** The trade log grows by one entry at a SELL row that meets an open
    position, and at no other time. *)
Lemma loop_trades_sells
    (whole rows : DataFrame) (f : DataFrame -> Signal) (st : State) :
  (length (trades (foldl (fun st '(idx, row) =>
                            on_row st (signal_at whole f idx) row) st rows))
   <= length (trades st)
      + sell_count (map (fun r => signal_at whole f (fst r)) rows))%nat.
Proof.
  revert st. induction rows as [|[idx row] rows IH]; intros st; [cbn; lia|].
  cbn [foldl map fst]. specialize (IH (on_row st (signal_at whole f idx) row)).
  unfold sell_count in *. cbn [List.filter].
  unfold on_row in *.
  destruct (signal_at whole f idx), (position st);
    cbn [trades length] in *; rewrite ?length_app in *; cbn [length] in *; lia.
Qed.

(** C8.  A position still open at the end of the series is not sold.  The
    report is built from the balance and the trade log alone, the final
    balance being the capital plus the logged pnls; the log holds at most
    one pnl per SELL signal; when a BUY opens a position at some row and no
    SELL follows, the loop ends with that position still open and with the
    balance and the log it had before that row, and the report shows that
    balance, that number of trades and the win rate of that log; and every
    position open at the end is of this kind. *)
Theorem open_position_not_liquidated
    (C : Q) (df : DataFrame) (f : DataFrame -> Signal) :
  (forall r, run_backtest C df f = Returned r ->
     to_np (final_balance r) = foldl fadd (Fin C) (trades (run_loop C df f))
     /\ trade_count r = length (trades (run_loop C df f))
     /\ compute_win_rate (trades (run_loop C df f)) = Returned (win_rate r))
  /\ (~ C == 0 \/ trades (run_loop C df f) <> [] ->
      exists r, run_backtest C df f = Returned r)
  /\ (length (trades (run_loop C df f)) <= sell_count (signals df f))%nat
  /\ (forall (n : nat) (idx : Z) (row : Row),
        df !! n = Some (idx, row) ->
        signal_at df f idx = BUY ->
        position (state_after C df f n) = None ->
        Forall (fun s => s <> SELL) (skipn (S n) (signals df f)) ->
        run_loop C df f
        = {| balance := balance (state_after C df f n);
             position :=
               Some {| entry := close row;
                       size := fdiv (to_np (balance (state_after C df f n)))
                                    (close row) |};
             trades := trades (state_after C df f n) |}
        /\ forall r, run_backtest C df f = Returned r ->
             final_balance r = balance (state_after C df f n)
             /\ trade_count r = length (trades (state_after C df f n))
             /\ compute_win_rate (trades (state_after C df f n))
                = Returned (win_rate r))
  /\ (forall pos, position (run_loop C df f) = Some pos ->
        exists (n : nat) (idx : Z) (row : Row),
          df !! n = Some (idx, row)
          /\ signal_at df f idx = BUY
          /\ position (state_after C df f n) = None
          /\ Forall (fun s => s <> SELL) (skipn (S n) (signals df f))
          /\ pos = {| entry := close row;
                      size := fdiv (to_np (balance (state_after C df f n)))
                                   (close row) |}).
Proof.
  assert (Hreport : forall r, run_backtest C df f = Returned r ->
            final_balance r = balance (run_loop C df f)
            /\ trade_count r = length (trades (run_loop C df f))
            /\ compute_win_rate (trades (run_loop C df f)) = Returned (win_rate r)).
  { intros r Hrun. unfold run_backtest in Hrun.
    destruct (num_div _ _) as [ratio|e]; [|discriminate].
    destruct (compute_win_rate _) as [w|e] eqn:Hw; [|discriminate].
    injection Hrun as <-. cbn. auto. }
  split; [|split; [|split; [|split]]].
  - intros r Hrun. destruct (Hreport r Hrun) as (Hb & Hc & Hw).
    rewrite Hb. split; [apply run_loop_balanced|]. split; assumption.
  - intros Hok. destruct (run_backtest_returns C df f Hok) as (r & Hrun & _).
    now exists r.
  - apply (loop_trades_sells df df f
             {| balance := Py C; position := None; trades := [] |}).
  - intros n idx row Hn Hbuy Hnone Hns.
    assert (Hloop : run_loop C df f
                    = {| balance := balance (state_after C df f n);
                         position :=
                           Some {| entry := close row;
                                   size := fdiv (to_np (balance (state_after C df f n)))
                                                (close row) |};
                         trades := trades (state_after C df f n) |}).
    { unfold run_loop.
      transitivity
        (foldl (fun st '(idx0, row0) => on_row st (signal_at df f idx0) row0)
               {| balance := Py C; position := None; trades := [] |}
               (firstn n df ++ (idx, row) :: skipn (S n) df)).
      { now rewrite (take_drop_middle df n (idx, row) Hn). }
      rewrite foldl_app. fold (state_after C df f n). cbn [foldl].
      rewrite Hbuy.
      assert (Hrow : on_row (state_after C df f n) BUY row
                     = {| balance := balance (state_after C df f n);
                          position :=
                            Some {| entry := close row;
                                    size := fdiv (to_np (balance (state_after C df f n)))
                                                 (close row) |};
                          trades := trades (state_after C df f n) |}).
      { unfold on_row. now rewrite Hnone. }
      rewrite Hrow. eapply loop_keeps_open; [reflexivity|].
      unfold signals in Hns. rewrite skipn_map in Hns.
      rewrite List.Forall_map in Hns. exact Hns. }
    split; [exact Hloop|].
    intros r Hrun. destruct (Hreport r Hrun) as (Hb & Hc & Hw).
    rewrite Hloop in Hb, Hc, Hw. cbn [balance trades] in Hb, Hc, Hw. auto.
  - intros pos Hopen. unfold run_loop in Hopen.
    destruct (loop_open_origin df df f
                {| balance := Py C; position := None; trades := [] |}
                pos eq_refl Hopen)
      as (pre & idx & row & post & Hdf & Hbuy & Hpre & Hpost & Heq).
    assert (Htake : firstn (length pre) df = pre).
    { rewrite Hdf. rewrite firstn_app, Nat.sub_diag, firstn_all. cbn.
      apply app_nil_r. }
    exists (length pre), idx, row.
    unfold state_after. rewrite Htake.
    split; [rewrite Hdf; now apply list_lookup_middle|].
    split; [exact Hbuy|]. split; [exact Hpre|]. split; [|exact Heq].
    unfold signals. rewrite skipn_map, List.Forall_map.
    replace (skipn (S (length pre)) df) with post; [exact Hpost|].
    rewrite Hdf.
    change (pre ++ (idx, row) :: post) with (pre ++ [(idx, row)] ++ post).
    rewrite app_assoc.
    rewrite skipn_app.
    rewrite skipn_all2 by (rewrite length_app; cbn; lia).
    rewrite length_app. cbn [length].
    replace (S (length pre) - (length pre + 1))%nat with 0%nat by lia.
    reflexivity.
Qed.

(** Buying at the first candle and holding while the price doubles: the
    report shows the untouched capital and no trade. *)
Example buy_and_hold_report :
  exists r,
    run_backtest 1000 (frame_of_closes [10; 15; 20])
      (fun d => match d with [_] => BUY | _ => HOLD end) = Returned r
    /\ final_balance r = Py 1000
    /\ trade_count r = 0%nat
    /\ win_rate r = Py 0
    /\ position (run_loop 1000 (frame_of_closes [10; 15; 20])
                   (fun d => match d with [_] => BUY | _ => HOLD end)) <> None.
Proof.
  eexists. split; [vm_compute; reflexivity|].
  repeat split; try reflexivity. vm_compute. discriminate.
Qed.

(** The scenario of the specification: closes 10, 11, 12, 11, 10, 9, 10,
    11, 12, 13, the reversal strategy and a capital of 1000.  The run buys
    at the fourth candle (close 11), sells at the seventh (close 10), and
    reports one losing trade and a final balance of 10000/11. *)
Theorem reversal_scenario :
  exists r b t,
    run_backtest 1000
      (frame_of_closes [10; 11; 12; 11; 10; 9; 10; 11; 12; 13])
      reversal_strategy = Returned r
    /\ final_balance r = Np (Fin b) /\ b == 10000 / 11
    /\ total_return r = Np (Fin t) /\ t == - (100 / 11)
    /\ trade_count r = 1%nat
    /\ win_rate r = Py 0.
Proof.
  eexists. eexists. eexists. split; [vm_compute; reflexivity|].
  cbn [final_balance total_return trade_count win_rate].
  repeat split; reflexivity.
Qed.

Lemma run_steps_python_balance (C : Q) (steps : list (Signal * Row)) (st : State) :
  (trades st = [] -> balance st = Py C) ->
  trades (run_steps st steps) = [] -> balance (run_steps st steps) = Py C.
Proof.
  revert st. induction steps as [|[s row] steps IH]; intros st Hst; [exact Hst|].
  apply IH. unfold on_row.
  destruct s, (position st); cbn; try exact Hst.
  intros Hnil. now apply app_nil in Hnil as [_ Hnil].
Qed.

(** X8.  With an initial capital of 0 and no closed trade the balance is
    still a plain Python number, the total-return division raises
    [ZeroDivisionError], and no report is produced. *)
Theorem zero_capital_without_trades_raises
    (C : Q) (df : DataFrame) (f : DataFrame -> Signal) :
  C == 0 ->
  trades (run_loop C df f) = [] ->
  run_backtest C df f = Raised ZeroDivisionError.
Proof.
  intros HC Hlog. unfold run_backtest.
  assert (Hbal : balance (run_loop C df f) = Py C).
  { rewrite run_loop_steps in Hlog |- *.
    now apply run_steps_python_balance. }
  rewrite Hbal. cbn [num_sub num_div]. unfold truediv.
  now rewrite (proj2 (Qeq_bool_iff C 0) HC).
Qed.

Lemma zero_capital_without_trades_raises_witness :
  run_backtest 0 (frame_of_closes [10; 15; 20])
    (fun d => match d with [_] => BUY | _ => HOLD end)
  = Raised ZeroDivisionError.
Proof.
  apply zero_capital_without_trades_raises; reflexivity.
Defined.

Lemma compute_win_rate_fraction (log : list fval) :
  exists w, compute_win_rate log = Returned (Py w) /\ 0 <= w /\ w <= 1.
Proof.
  destruct log as [|t log].
  - exists 0. split; [reflexivity|]. split; discriminate.
  - unfold compute_win_rate, num_div, truediv.
    change (length (t :: log)) with (S (length log)).
    rewrite of_nat_S_nonzero. eexists. split; [reflexivity|].
    pose proof (filter_length_le (fun t0 => flt (Fin 0) t0) (t :: log)) as Hle.
    change (length (t :: log)) with (S (length log)) in Hle.
    pose proof (of_nat_S_nonzero (length log)) as Hnz. apply Qeq_bool_false in Hnz.
    assert (Hpos : 0 < inject_Z (Z.of_nat (S (length log)))).
    { unfold Qlt, inject_Z. cbn [Qnum Qden]. lia. }
    assert (H0 : 0 <= inject_Z (Z.of_nat (length (List.filter (fun t0 => flt (Fin 0) t0) (t :: log))))).
    { unfold Qle, inject_Z. cbn [Qnum Qden]. lia. }
    assert (H1 : inject_Z (Z.of_nat (length (List.filter (fun t0 => flt (Fin 0) t0) (t :: log))))
                 <= inject_Z (Z.of_nat (S (length log)))).
    { rewrite <- Zle_Qle. lia. }
    split.
    + apply Qle_shift_div_l; [exact Hpos|lra].
    + apply Qle_shift_div_r; [exact Hpos|lra].
Qed.

(** X15.  The win rate is always a plain number between 0 and 1: for
    every trade log the expression returns such a number, and so does
    every report. *)
Theorem win_rate_is_a_fraction
    (C : Q) (df : DataFrame) (f : DataFrame -> Signal) :
  (forall log, exists w, compute_win_rate log = Returned (Py w) /\ 0 <= w /\ w <= 1)
  /\ (forall r, run_backtest C df f = Returned r ->
                exists w, win_rate r = Py w /\ 0 <= w /\ w <= 1).
Proof.
  split; [exact compute_win_rate_fraction|].
  intros r Hrun. unfold run_backtest in Hrun.
  destruct (num_div _ _) as [ratio|e]; [|discriminate].
  destruct (compute_win_rate_fraction (trades (run_loop C df f))) as (w & Hw & Hb).
  rewrite Hw in Hrun. injection Hrun as <-. exists w. split; [reflexivity|exact Hb].
Qed.

Lemma on_row_rows_used (st : State) (s : Signal) (row : Row) :
  (rows_used (on_row st s row) <= rows_used st + 1)%nat.
Proof.
  unfold rows_used, on_row.
  destruct (position st) eqn:E, s; cbn -[Nat.mul];
    rewrite ?E, ?length_app; cbn -[Nat.mul]; lia.
Qed.

Lemma run_steps_rows_used (steps : list (Signal * Row)) (st : State) :
  (rows_used (run_steps st steps) <= rows_used st + length steps)%nat.
Proof.
  revert st. induction steps as [|[s row] steps IH]; intros st; [cbn; lia|].
  change (run_steps st ((s, row) :: steps)) with (run_steps (on_row st s row) steps).
  specialize (IH (on_row st s row)).
  pose proof (on_row_rows_used st s row). cbn [length]. lia.
Qed.

(** X16.  A closed trade takes a BUY row and a later SELL row, and an open
    position one more row: twice the number of closed trades, plus one if
    a position is still open, never exceeds the number of candles. *)
Theorem trades_need_two_rows
    (C : Q) (df : DataFrame) (f : DataFrame -> Signal) :
  (rows_used (run_loop C df f) <= length df)%nat
  /\ (forall r, run_backtest C df f = Returned r ->
                (2 * trade_count r <= length df)%nat).
Proof.
  assert (Hused : (rows_used (run_loop C df f) <= length df)%nat).
  { rewrite run_loop_steps.
    pose proof (run_steps_rows_used (zip (signals df f) (map snd df))
                  {| balance := Py C; position := None; trades := [] |}) as H.
    rewrite length_zip_with in H. unfold signals in H.
    rewrite !length_map in H. unfold signals.
    change (rows_used {| balance := Py C; position := None; trades := [] |})
      with 0%nat in H. lia. }
  split; [exact Hused|].
  intros r Hrun. unfold run_backtest in Hrun.
  destruct (num_div _ _) as [ratio|e]; [|discriminate].
  destruct (compute_win_rate _) as [w|e]; [|discriminate].
  injection Hrun as <-. cbn [trade_count].
  unfold rows_used in Hused. lia.
Qed.

Lemma run_steps_without_buy (steps : list (Signal * Row)) (st : State) :
  position st = None ->
  Forall (fun step => fst step <> BUY) steps ->
  run_steps st steps = st.
Proof.
  revert st. induction steps as [|[s row] steps IH]; intros st Hpos Hnb; [reflexivity|].
  inversion Hnb as [|? ? Hs Hrest]; subst.
  change (run_steps (on_row st s row) steps = st).
  assert (Hrow : on_row st s row = st).
  { unfold on_row. rewrite Hpos. destruct s; cbn in *; congruence. }
  rewrite Hrow. now apply IH.
Qed.

(** X17.  A strategy that never answers BUY leaves the capital untouched:
    the loop ends in its initial state, and for a nonzero capital the
    report shows the capital, a return of 0 and no trade. *)
Theorem never_buying_keeps_capital
    (C : Q) (df : DataFrame) (f : DataFrame -> Signal) :
  Forall (fun s => s <> BUY) (signals df f) ->
  run_loop C df f = {| balance := Py C; position := None; trades := [] |}
  /\ (~ C == 0 ->
      exists r t,
        run_backtest C df f = Returned r
        /\ final_balance r = Py C
        /\ total_return r = Py t /\ t == 0
        /\ trade_count r = 0%nat
        /\ win_rate r = Py 0).
Proof.
  intros Hnb.
  assert (Hloop : run_loop C df f
                  = {| balance := Py C; position := None; trades := [] |}).
  { rewrite run_loop_steps. apply run_steps_without_buy; [reflexivity|].
    apply Forall_forall. intros [s row] Hin. cbn.
    apply elem_of_zip_l in Hin.
    rewrite Forall_forall in Hnb. now apply Hnb. }
  split; [exact Hloop|].
  intros HC. unfold run_backtest. rewrite Hloop.
  cbn [balance trades num_sub num_div compute_win_rate]. unfold truediv.
  rewrite (proj2 (Qeq_bool_false C 0) HC).
  eexists. eexists. split; [reflexivity|].
  cbn [final_balance total_return trade_count win_rate num_mul].
  repeat split; try reflexivity. field. exact HC.
Qed.

Lemma never_buying_keeps_capital_witness :
  run_loop 1000 (frame_of_closes [10; 12; 9]) (fun _ => SELL)
  = {| balance := Py 1000; position := None; trades := [] |}.
Proof.
  apply (never_buying_keeps_capital 1000 (frame_of_closes [10; 12; 9]) (fun _ => SELL)).
  repeat constructor; discriminate.
Defined.

End BacktestProperties.

(* ===================================================================== *)
(** ** The backtest engine in binary64 *)
(* ===================================================================== *)

Section Backtest64Properties.
Import Float Python Binary64 BacktestEngine64 Spec PrimFloat.
Local Open Scope Q_scope.
Local Arguments Qmult : simpl never.
Local Arguments Qplus : simpl never.
Local Arguments Qminus : simpl never.
Local Arguments Qdiv : simpl never.
Local Arguments Qopp : simpl never.
Local Arguments inject_Z : simpl never.











End Backtest64Properties.

(* ===================================================================== *)
(** ** The relative strength index *)
(* ===================================================================== *)

Section RsiProperties.
Import Float Pandas TechnicalIndicators Spec.
Local Open Scope Q_scope.
Local Arguments Qmult : simpl never.
Local Arguments Qplus : simpl never.
Local Arguments Qminus : simpl never.
Local Arguments Qdiv : simpl never.
Local Arguments Qopp : simpl never.
Local Arguments inject_Z : simpl never.

Lemma diff_from_fin (p : Q) (l : list Q) :
  Forall fin_or_nan (diff_from (Fin p) (map Fin l)).
Proof.
  revert p. induction l as [|x l IH]; intros p; cbn; constructor.
  - exact I.
  - apply IH.
Qed.

Lemma diff_fin (prices : list Q) : Forall fin_or_nan (diff (map Fin prices)).
Proof.
  destruct prices as [|p l]; cbn; constructor; [exact I|apply diff_from_fin].
Qed.

Lemma length_diff_from (p : fval) (s : Series) :
  length (diff_from p s) = length s.
Proof. revert p. induction s as [|x s IH]; intros p; cbn; [|rewrite IH]; reflexivity. Qed.

Lemma length_diff (s : Series) : length (diff s) = length s.
Proof. destruct s; cbn; [|rewrite length_diff_from]; reflexivity. Qed.

Lemma gains_nonneg (delta : Series) :
  Forall fin_or_nan delta ->
  Forall nonneg_fin (where_ (fun d => flt (Fin 0) d) (Fin 0) delta).
Proof.
  intros H. unfold where_. apply Forall_fmap. eapply Forall_impl; [exact H|].
  intros [q| | |] Hx; cbn in *; try contradiction.
  - destruct (Qltb 0 q) eqn:E; cbn.
    + apply Qltb_true in E. lra.
    + lra.
  - lra.
Qed.

Lemma losses_nonneg (delta : Series) :
  Forall fin_or_nan delta ->
  Forall nonneg_fin (map fneg (where_ (fun d => flt d (Fin 0)) (Fin 0) delta)).
Proof.
  intros H. unfold where_. rewrite map_map. apply Forall_fmap.
  eapply Forall_impl; [exact H|].
  intros [q| | |] Hx; cbn in *; try contradiction.
  - destruct (Qltb q 0) eqn:E; cbn.
    + apply Qltb_true in E. lra.
    + lra.
  - lra.
Qed.

Lemma fsum_nonneg (l : Series) :
  Forall nonneg_fin l -> exists q, fsum l = Fin q /\ 0 <= q.
Proof.
  induction 1 as [|x l Hx Hl (q & Hq & Hq0)]; cbn.
  - exists 0. split; [reflexivity|lra].
  - unfold fsum in Hq. rewrite Hq. destruct x as [a| | |]; cbn in *; try contradiction.
    exists (a + q). split; [reflexivity|lra].
Qed.

Lemma filter_isfinite_nonneg (l : Series) :
  Forall nonneg_fin l -> List.filter isfinite l = l.
Proof.
  induction 1 as [|x l Hx Hl IH]; cbn; [reflexivity|].
  destruct x; cbn in *; try contradiction. now rewrite IH.
Qed.

Lemma window_at_nonneg (w : nat) (s : Series) (i : nat) :
  Forall nonneg_fin s -> Forall nonneg_fin (window_at w s i).
Proof. intros H. unfold window_at. now apply Forall_drop, Forall_take. Qed.

Lemma length_window_at (w : nat) (s : Series) (i : nat) :
  (i < length s)%nat -> length (window_at w s i) = Nat.min w (i + 1).
Proof.
  intros Hi. unfold window_at. rewrite length_drop, length_take. lia.
Qed.

Lemma length_rolling_mean (w : nat) (s : Series) :
  length (rolling_mean w s) = length s.
Proof. unfold rolling_mean. now rewrite length_map, length_seq. Qed.

Lemma of_nat_pos (n : nat) : (1 <= n)%nat -> 0 < inject_Z (Z.of_nat n).
Proof.
  intros H. unfold Qlt, inject_Z. cbn [Qnum Qden]. lia.
Qed.

(** The rolling mean of non-negative finite values: missing while the
    window is not full, a non-negative number afterwards. *)
Lemma rolling_mean_nonneg (w : nat) (s : Series) (i : nat) :
  Forall nonneg_fin s -> (i < length s)%nat ->
  ((i + 1 < w)%nat \/ w = 0%nat -> rolling_mean w s !! i = Some NaN)
  /\ ((1 <= w <= i + 1)%nat ->
      exists m, rolling_mean w s !! i = Some (Fin m) /\ 0 <= m).
Proof.
  intros Hs Hi.
  assert (Hlook : rolling_mean w s !! i
                  = Some (if (Nat.min w (i + 1) <? w)%nat then NaN
                          else fdiv (fsum (window_at w s i))
                                    (of_nat (Nat.min w (i + 1))))).
  { unfold rolling_mean.
    change (map ?g ?l) with (g <$> l). rewrite list_lookup_fmap.
    rewrite lookup_seq_lt by exact Hi. cbn [fmap option_fmap option_map].
    rewrite filter_isfinite_nonneg by now apply window_at_nonneg.
    now rewrite length_window_at. }
  rewrite Hlook.
  destruct (fsum_nonneg (window_at w s i) (window_at_nonneg w s i Hs))
    as (q & Hq & Hq0).
  split.
  - intros [Hshort| ->].
    + destruct (Nat.ltb_spec (Nat.min w (i + 1)) w); [reflexivity|lia].
    + cbn. rewrite Hq. cbn.
      unfold window_at in Hq. rewrite Nat.sub_0_r in Hq.
      rewrite drop_ge in Hq by (rewrite length_take; lia).
      cbn in Hq. injection Hq as <-. reflexivity.
  - intros Hfull.
    destruct (Nat.ltb_spec (Nat.min w (i + 1)) w); [lia|].
    replace (Nat.min w (i + 1)) with w by lia.
    rewrite Hq. unfold of_nat. cbn [fdiv].
    pose proof (of_nat_pos w (proj1 Hfull)) as Hw.
    rewrite (proj2 (Qeq_bool_false _ 0)) by lra.
    exists (q / inject_Z (Z.of_nat w)). split; [reflexivity|].
    apply Qle_shift_div_l; [exact Hw|lra].
Qed.

Lemma length_rsi_gain (prices : list Q) (period : nat) :
  length (rsi_gain prices period) = length prices.
Proof.
  unfold rsi_gain, where_.
  now rewrite length_rolling_mean, length_map, length_diff, length_map.
Qed.


Lemma calculate_rsi_lookup (prices : list Q) (period i : nat) (g l : fval) :
  rsi_gain prices period !! i = Some g ->
  rsi_loss prices period !! i = Some l ->
  calculate_rsi prices period !! i = Some (rsi_of g l).
Proof.
  intros Hg Hl. unfold calculate_rsi.
  change (map ?f ?s) with (f <$> s).
  rewrite list_lookup_fmap, lookup_zip_with, Hg, Hl. reflexivity.
Qed.


(** The mean gain and the mean loss at a position of the series. *)
Lemma rsi_means (prices : list Q) (period i : nat) :
  (i < length prices)%nat ->
  ((i + 1 < period)%nat \/ period = 0%nat ->
     rsi_gain prices period !! i = Some NaN
     /\ rsi_loss prices period !! i = Some NaN)
  /\ ((1 <= period <= i + 1)%nat ->
      exists g l,
        rsi_gain prices period !! i = Some (Fin g)
        /\ rsi_loss prices period !! i = Some (Fin l)
        /\ 0 <= g /\ 0 <= l).
Proof.
  intros Hi.
  pose proof (gains_nonneg _ (diff_fin prices)) as Hgains.
  pose proof (losses_nonneg _ (diff_fin prices)) as Hlosses.
  assert (Hig : (i < length (where_ (fun d => flt (Fin 0) d) (Fin 0)
                               (diff (map Fin prices))))%nat).
  { unfold where_. now rewrite length_map, length_diff, length_map. }
  assert (Hil : (i < length (map fneg (where_ (fun d => flt d (Fin 0)) (Fin 0)
                                         (diff (map Fin prices)))))%nat).
  { unfold where_. now rewrite !length_map, length_diff, length_map. }
  destruct (rolling_mean_nonneg period _ i Hgains Hig) as [Hg1 Hg2].
  destruct (rolling_mean_nonneg period _ i Hlosses Hil) as [Hl1 Hl2].
  split.
  - intros H. split; [apply Hg1, H|apply Hl1, H].
  - intros H. destruct (Hg2 H) as (g & Hg & Hg0). destruct (Hl2 H) as (l & Hl & Hl0).
    exists g, l. auto.
Qed.

(** With a positive mean loss the index is a number between 0 and 100. *)
Lemma rsi_of_regular (g l : Q) :
  0 <= g -> 0 < l ->
  exists r, rsi_of (Fin g) (Fin l) = Fin r /\ 0 <= r /\ r <= 100.
Proof.
  intros Hg Hl. unfold rsi_of. cbn [fdiv].
  rewrite (proj2 (Qeq_bool_false l 0)) by lra.
  cbn [fadd fdiv].
  assert (Hrs : 0 <= g / l) by (apply Qle_shift_div_l; [exact Hl|lra]).
  rewrite (proj2 (Qeq_bool_false (1 + g / l) 0)) by lra.
  cbn [fsub fneg fadd].
  exists (100 + - (100 / (1 + g / l))). split; [reflexivity|].
  assert (H1 : 0 <= 100 / (1 + g / l)) by (apply Qle_shift_div_l; lra).
  assert (H2 : 100 / (1 + g / l) <= 100) by (apply Qle_shift_div_r; lra).
  lra.
Qed.

(** With no loss in the window the quotient is infinite and the index
    saturates at 100, unless there is no gain either: then it is 0/0. *)
Lemma rsi_of_no_loss (g l : Q) :
  0 <= g -> l == 0 ->
  (0 < g -> exists r, rsi_of (Fin g) (Fin l) = Fin r /\ r == 100)
  /\ (g == 0 -> rsi_of (Fin g) (Fin l) = NaN).
Proof.
  intros Hg Hl. unfold rsi_of. cbn [fdiv].
  rewrite (proj2 (Qeq_bool_iff l 0)) by exact Hl.
  unfold inf_of_sign. split.
  - intros Hpos. apply Qgt_alt in Hpos. rewrite Hpos. cbn.
    eexists. split; [reflexivity|]. reflexivity.
  - intros Hz. apply Qeq_alt in Hz. rewrite Hz. reflexivity.
Qed.

(** C1.  Wherever both rolling means are numbers and the mean loss is
    strictly positive, [calculate_rsi] gives a number in [0, 100]. *)
Theorem rsi_in_range (prices : list Q) (period i : nat) (g l : Q) :
  rsi_gain prices period !! i = Some (Fin g) ->
  rsi_loss prices period !! i = Some (Fin l) ->
  0 < l ->
  exists r,
    calculate_rsi prices period !! i = Some (Fin r) /\ 0 <= r /\ r <= 100.
Proof.
  intros Hg Hl Hpos.
  assert (Hi : (i < length prices)%nat).
  { rewrite <- (length_rsi_gain prices period). eapply lookup_lt_Some, Hg. }
  assert (Hg0 : 0 <= g).
  { destruct (rsi_means prices period i Hi) as [Hshort Hfull].
    destruct (Nat.le_gt_cases period (i + 1)) as [Hle|Hgt].
    - destruct period as [|p].
      + destruct Hshort as [Hnan _]; [now right|congruence].
      + destruct Hfull as (g' & l' & Hg' & _ & Hg'0 & _); [lia|].
        rewrite Hg in Hg'. injection Hg' as ->. exact Hg'0.
    - destruct Hshort as [Hnan _]; [left; lia|congruence]. }
  destruct (rsi_of_regular g l Hg0 Hpos) as (r & Hr & Hbounds).
  exists r. split; [|exact Hbounds].
  rewrite <- Hr. now apply calculate_rsi_lookup.
Qed.

Lemma rsi_in_range_witness :
  exists r,
    calculate_rsi [44; 45; 43; 46; 47] 3 !! 3%nat = Some (Fin r)
    /\ 0 <= r /\ r <= 100.
Proof.
  apply (rsi_in_range [44; 45; 43; 46; 47] 3 3 (4 # 3) (2 # 3)).
  - vm_compute. reflexivity.
  - vm_compute. reflexivity.
  - reflexivity.
Defined.




(** X7.  Where the window holds a gain and no loss, the quotient of the means
    is infinite and the output is exactly 100: the code saturates by
    itself there. *)
Theorem rsi_saturates_without_loss
    (prices : list Q) (period i : nat) (g l : Q) :
  rsi_gain prices period !! i = Some (Fin g) ->
  rsi_loss prices period !! i = Some (Fin l) ->
  0 < g -> l == 0 ->
  exists r, calculate_rsi prices period !! i = Some (Fin r) /\ r == 100.
Proof.
  intros Hg Hl Hpos Hz.
  destruct (proj1 (rsi_of_no_loss g l (Qlt_le_weak _ _ Hpos) Hz) Hpos)
    as (r & Hr & H100).
  exists r. split; [|exact H100].
  rewrite <- Hr. now apply calculate_rsi_lookup.
Qed.

Lemma rsi_saturates_without_loss_witness :
  exists r, calculate_rsi [1; 2; 3; 2; 4] 2 !! 2%nat = Some (Fin r) /\ r == 100.
Proof.
  apply (rsi_saturates_without_loss [1; 2; 3; 2; 4] 2 2 (2 # 2) (0 # 2)).
  - vm_compute. reflexivity.
  - vm_compute. reflexivity.
  - reflexivity.
  - reflexivity.
Defined.

End RsiProperties.


(* ===================================================================== *)
(** ** Support and resistance *)
(* ===================================================================== *)

Section SupportResistanceProperties.
Import Float Pandas TechnicalIndicators Spec.
Local Open Scope Q_scope.

Lemma min_from_le (l : list Q) (m : Q) :
  min_from m l <= m /\ forall x, In x l -> min_from m l <= x.
Proof.
  revert m. induction l as [|y t IH]; intros m; cbn.
  - split; [apply Qle_refl|tauto].
  - destruct (IH (if Qltb y m then y else m)) as [Hm Ht].
    destruct (Qltb y m) eqn:E.
    + apply Qltb_true in E. split; [lra|].
      intros x [<-|Hx]; [exact Hm|now apply Ht].
    + apply Qltb_false in E. split; [exact Hm|].
      intros x [<-|Hx]; [lra|now apply Ht].
Qed.

Lemma min_from_in (l : list Q) (m : Q) : In (min_from m l) (m :: l).
Proof.
  revert m. induction l as [|y t IH]; intros m; cbn; [now left|].
  destruct (IH (if Qltb y m then y else m)) as [H|H].
  - destruct (Qltb y m); [right; left|left]; exact H.
  - right. right. exact H.
Qed.

Lemma max_from_ge (l : list Q) (m : Q) :
  m <= max_from m l /\ forall x, In x l -> x <= max_from m l.
Proof.
  revert m. induction l as [|y t IH]; intros m; cbn.
  - split; [apply Qle_refl|tauto].
  - destruct (IH (if Qltb m y then y else m)) as [Hm Ht].
    destruct (Qltb m y) eqn:E.
    + apply Qltb_true in E. split; [lra|].
      intros x [<-|Hx]; [exact Hm|now apply Ht].
    + apply Qltb_false in E. split; [exact Hm|].
      intros x [<-|Hx]; [lra|now apply Ht].
Qed.

Lemma max_from_in (l : list Q) (m : Q) : In (max_from m l) (m :: l).
Proof.
  revert m. induction l as [|y t IH]; intros m; cbn; [now left|].
  destruct (IH (if Qltb m y then y else m)) as [H|H].
  - destruct (Qltb m y); [right; left|left]; exact H.
  - right. right. exact H.
Qed.

(** [p == w.min()] for a [p] taken from [w]: [p] is below every entry. *)
Lemma feq_series_min (p : Q) (w : list Q) :
  In p w ->
  feq (Fin p) (series_min w) = true <-> forall x, In x w -> p <= x.
Proof.
  intros Hp. destruct w as [|x0 t]; [destruct Hp|].
  cbn [series_min feq]. rewrite Qeq_bool_iff.
  destruct (min_from_le t x0) as [H0 Ht].
  assert (Hmin : forall x, In x (x0 :: t) -> min_from x0 t <= x).
  { intros x [<-|Hx]; [exact H0|now apply Ht]. }
  split.
  - intros Heq x Hx. rewrite Heq. now apply Hmin.
  - intros Hall. apply Qle_antisym; [apply Hall, min_from_in|now apply Hmin].
Qed.

Lemma feq_series_max (p : Q) (w : list Q) :
  In p w ->
  feq (Fin p) (series_max w) = true <-> forall x, In x w -> x <= p.
Proof.
  intros Hp. destruct w as [|x0 t]; [destruct Hp|].
  cbn [series_max feq]. rewrite Qeq_bool_iff.
  destruct (max_from_ge t x0) as [H0 Ht].
  assert (Hmax : forall x, In x (x0 :: t) -> x <= max_from x0 t).
  { intros x [<-|Hx]; [exact H0|now apply Ht]. }
  split.
  - intros Heq x Hx. rewrite Heq. now apply Hmax.
  - intros Hall. apply Qle_antisym; [now apply Hmax|apply Hall, max_from_in].
Qed.

Lemma in_iloc_slice (prices : list Q) (a b : nat) (x : Q) :
  In x (iloc_slice prices a b)
  <-> exists j, (a <= j < b)%nat /\ prices !! j = Some x.
Proof.
  rewrite <- list_elem_of_In, list_elem_of_lookup. unfold iloc_slice. split.
  - intros [k Hk]. rewrite lookup_drop in Hk.
    apply lookup_take_Some in Hk as [Hk1 Hk2].
    exists (a + k)%nat. split; [lia|exact Hk1].
  - intros (j & Hj & Hx). exists (j - a)%nat.
    rewrite lookup_drop. apply lookup_take_Some.
    replace (a + (j - a))%nat with j by lia. split; [exact Hx|lia].
Qed.

(** The loop appends, for each index in turn, what [support_at] and
    [resistance_at] give. *)
Lemma identify_fold (prices : list Q) (W : nat) (idx : list nat)
    (support resistance : list (nat * Q)) :
  foldl (fun '(support, resistance) i =>
           match prices !! i with
           | None => (support, resistance)
           | Some p =>
               let w := iloc_slice prices (i - W) (i + W) in
               let support :=
                 if feq (Fin p) (series_min w) then support ++ [(i, p)] else support in
               let resistance :=
                 if feq (Fin p) (series_max w) then resistance ++ [(i, p)] else resistance in
               (support, resistance)
           end)
        (support, resistance) idx
  = (support ++ flat_map (support_at prices W) idx,
     resistance ++ flat_map (resistance_at prices W) idx).
Proof.
  revert support resistance.
  induction idx as [|i idx IH]; intros support resistance; cbn [foldl flat_map].
  - now rewrite !app_nil_r.
  - unfold support_at at 1, resistance_at at 1.
    destruct (prices !! i) as [p|]; [|now rewrite IH].
    cbn zeta. rewrite IH.
    destruct (feq (Fin p) (series_min _)), (feq (Fin p) (series_max _));
      now rewrite <- ?app_assoc.
Qed.

Lemma identify_lists (prices : list Q) (W : nat) :
  identify_support_resistance prices W
  = (flat_map (support_at prices W) (range W (length prices - W)),
     flat_map (resistance_at prices W) (range W (length prices - W))).
Proof. unfold identify_support_resistance. now rewrite identify_fold. Qed.

Lemma in_range (a b i : nat) : In i (range a b) <-> (a <= i < b)%nat.
Proof. unfold range. rewrite in_seq. lia. Qed.

(** A price at position [i] lies in its own window when [W >= 1]. *)
Lemma own_window (prices : list Q) (W i : nat) (p : Q) :
  (1 <= W)%nat -> prices !! i = Some p ->
  In p (iloc_slice prices (i - W) (i + W)).
Proof.
  intros HW Hp. apply in_iloc_slice. exists i. split; [lia|exact Hp].
Qed.

Lemma feq_nonempty_window (p : Q) (prices : list Q) (W i : nat) (m : fval) :
  (m = series_min (iloc_slice prices (i - W) (i + W))
   \/ m = series_max (iloc_slice prices (i - W) (i + W))) ->
  feq (Fin p) m = true -> (1 <= W)%nat.
Proof.
  intros Hm Hfeq.
  destruct (iloc_slice prices (i - W) (i + W)) as [|x t] eqn:Hw.
  - destruct Hm as [-> | ->]; discriminate.
  - assert (Hx : In x (iloc_slice prices (i - W) (i + W))) by (rewrite Hw; now left).
    apply in_iloc_slice in Hx as (j & Hj & _). lia.
Qed.

Lemma in_support_at (prices : list Q) (W k i : nat) (p : Q) :
  In (i, p) (support_at prices W k)
  <-> k = i /\ (1 <= W)%nat /\ prices !! i = Some p
      /\ forall j x, (i - W <= j < i + W)%nat -> prices !! j = Some x -> p <= x.
Proof.
  unfold support_at. split.
  - destruct (prices !! k) as [q|] eqn:Hq; [|intros []].
    destruct (feq _ _) eqn:Hfeq; [|intros []].
    intros [Heq|[]]. injection Heq as -> ->.
    pose proof (feq_nonempty_window p prices W i _ (or_introl eq_refl) Hfeq) as HW.
    repeat split; try assumption.
    intros j x Hj Hx.
    apply (proj1 (feq_series_min p _ (own_window prices W i p HW Hq)) Hfeq).
    apply in_iloc_slice. eauto.
  - intros (-> & HW & Hp & Hall). rewrite Hp.
    rewrite (proj2 (feq_series_min p _ (own_window prices W i p HW Hp))).
    + now left.
    + intros x (j & Hj & Hx)%in_iloc_slice. eauto.
Qed.

Lemma in_resistance_at (prices : list Q) (W k i : nat) (p : Q) :
  In (i, p) (resistance_at prices W k)
  <-> k = i /\ (1 <= W)%nat /\ prices !! i = Some p
      /\ forall j x, (i - W <= j < i + W)%nat -> prices !! j = Some x -> x <= p.
Proof.
  unfold resistance_at. split.
  - destruct (prices !! k) as [q|] eqn:Hq; [|intros []].
    destruct (feq _ _) eqn:Hfeq; [|intros []].
    intros [Heq|[]]. injection Heq as -> ->.
    pose proof (feq_nonempty_window p prices W i _ (or_intror eq_refl) Hfeq) as HW.
    repeat split; try assumption.
    intros j x Hj Hx.
    apply (proj1 (feq_series_max p _ (own_window prices W i p HW Hq)) Hfeq).
    apply in_iloc_slice. eauto.
  - intros (-> & HW & Hp & Hall). rewrite Hp.
    rewrite (proj2 (feq_series_max p _ (own_window prices W i p HW Hp))).
    + now left.
    + intros x (j & Hj & Hx)%in_iloc_slice. eauto.
Qed.

(** C4, as the code has it.  [(i, p)] is reported as a support exactly
    when [W >= 1], [W <= i < len - W], [p] is the price at [i], and [p] is
    the least of the [2W] prices at positions [i - W .. i + W - 1]; the
    same with the greatest price for a resistance.  Each index is judged
    on its own, so every index of a plateau that qualifies is reported. *)
Theorem support_resistance_window (prices : list Q) (W i : nat) (p : Q) :
  (In (i, p) (fst (identify_support_resistance prices W))
   <-> (1 <= W)%nat /\ (W <= i)%nat /\ (i + W < length prices)%nat
       /\ prices !! i = Some p
       /\ forall j x, (i - W <= j < i + W)%nat -> prices !! j = Some x -> p <= x)
  /\ (In (i, p) (snd (identify_support_resistance prices W))
      <-> (1 <= W)%nat /\ (W <= i)%nat /\ (i + W < length prices)%nat
          /\ prices !! i = Some p
          /\ forall j x, (i - W <= j < i + W)%nat -> prices !! j = Some x -> x <= p).
Proof.
  rewrite identify_lists. cbn [fst snd]. rewrite !in_flat_map. split; split.
  - intros (k & Hk%in_range & (-> & HW & Hp & Hall)%in_support_at).
    repeat split; try assumption; lia.
  - intros (HW & Hlo & Hhi & Hp & Hall). exists i. split.
    + apply in_range. lia.
    + apply in_support_at. auto.
  - intros (k & Hk%in_range & (-> & HW & Hp & Hall)%in_resistance_at).
    repeat split; try assumption; lia.
  - intros (HW & Hlo & Hhi & Hp & Hall). exists i. split.
    + apply in_range. lia.
    + apply in_resistance_at. auto.
Qed.

(** With closes 5, 3, 1 and window 1 the code reports position 1 as a
    support although the price at position 2, inside the closed window
    centered on 1, is lower; and it does not report position 2, whose
    price is the least of the two points 1 .. 2. *)
Lemma support_closed_window_counterexample :
  (In (1%nat, 3) (fst (identify_support_resistance [5; 3; 1] 1))
   /\ ~ window_minimum_closed [5; 3; 1] 1 1)
  /\ (window_minimum_2w [5; 3; 1] 1 2
      /\ forall p, ~ In (2%nat, p) (fst (identify_support_resistance [5; 3; 1] 1))).
Proof.
  split; split.
  - vm_compute. now left.
  - intros (p & Hp & Hall). injection Hp as <-.
    specialize (Hall 2%nat 1 ltac:(lia) eq_refl). revert Hall. apply Qlt_not_le.
    reflexivity.
  - exists 1. split; [reflexivity|].
    intros [|[|[|j]]] x Hj Hx; try lia; injection Hx as <-; discriminate.
  - intros p. vm_compute. intros [H|[]]. discriminate.
Qed.

(** Every index of a plateau that qualifies is reported. *)
Example plateau_supports :
  fst (identify_support_resistance [5; 3; 1; 1; 1; 4; 7; 2] 2)
  = [(2%nat, 1); (3%nat, 1); (4%nat, 1)].
Proof. reflexivity. Qed.

Lemma seq_sorted (a n : nat) : StronglySorted lt (seq a n).
Proof.
  revert a. induction n as [|n IH]; intros a; cbn; constructor; [apply IH|].
  apply List.Forall_forall. intros x Hx. apply in_seq in Hx. lia.
Qed.

Lemma flat_map_at_sorted (at_index : nat -> list (nat * Q)) (idx : list nat) :
  (forall k i p, In (i, p) (at_index k) -> k = i) ->
  (forall k, (length (at_index k) <= 1)%nat) ->
  StronglySorted lt idx ->
  StronglySorted lt (map fst (flat_map at_index idx)).
Proof.
  intros Hown Hone. induction 1 as [|k idx Hsorted IH Hlt]; cbn [flat_map].
  - constructor.
  - rewrite map_app. specialize (Hone k).
    destruct (at_index k) as [|[i p] [|? ?]] eqn:E; cbn in Hone; try lia.
    + exact IH.
    + cbn [map app fst]. constructor; [exact IH|].
      assert (Hk : k = i) by (apply (Hown k i p); rewrite E; now left).
      subst i. apply List.Forall_forall. intros j Hj.
      apply in_map_iff in Hj as ([j' q] & <- & Hj).
      apply in_flat_map in Hj as (k' & Hk' & Hj).
      apply Hown in Hj. subst k'. cbn.
      rewrite List.Forall_forall in Hlt. now apply Hlt.
Qed.

(** X6.  Both lists come out in increasing order of position with no
    position repeated, and every reported price is the price at its
    position. *)
Theorem support_resistance_ordered (prices : list Q) (W : nat) :
  StronglySorted lt (map fst (fst (identify_support_resistance prices W)))
  /\ StronglySorted lt (map fst (snd (identify_support_resistance prices W)))
  /\ (forall i p, In (i, p) (fst (identify_support_resistance prices W)) ->
        prices !! i = Some p)
  /\ (forall i p, In (i, p) (snd (identify_support_resistance prices W)) ->
        prices !! i = Some p).
Proof.
  rewrite identify_lists. cbn [fst snd].
  split; [|split; [|split]].
  - apply flat_map_at_sorted; [| |apply seq_sorted].
    + intros k i p H. now apply in_support_at in H as (-> & _).
    + intros k. unfold support_at. destruct (prices !! k); [|cbn; lia].
      destruct (feq _ _); cbn; lia.
  - apply flat_map_at_sorted; [| |apply seq_sorted].
    + intros k i p H. now apply in_resistance_at in H as (-> & _).
    + intros k. unfold resistance_at. destruct (prices !! k); [|cbn; lia].
      destruct (feq _ _); cbn; lia.
  - intros i p (k & _ & H)%in_flat_map. now apply in_support_at in H as (_ & _ & H & _).
  - intros i p (k & _ & H)%in_flat_map. now apply in_resistance_at in H as (_ & _ & H & _).
Qed.

(** X28.  A position is reported both as a support and as a resistance
    exactly when all [2W] prices of its window are equal (a flat stretch):
    on a constant series every scanned position is reported twice. *)
Theorem support_and_resistance_on_flat_window
    (prices : list Q) (W i : nat) (p : Q) :
  In (i, p) (fst (identify_support_resistance prices W))
  /\ In (i, p) (snd (identify_support_resistance prices W))
  <-> (1 <= W)%nat /\ (W <= i)%nat /\ (i + W < length prices)%nat
      /\ prices !! i = Some p
      /\ forall j x, (i - W <= j < i + W)%nat -> prices !! j = Some x -> x == p.
Proof.
  rewrite identify_lists. cbn [fst snd]. rewrite !in_flat_map. split.
  - intros [(k & Hk%in_range & (-> & HW & Hp & Hmin)%in_support_at)
            (k' & _ & (-> & _ & _ & Hmax)%in_resistance_at)].
    repeat split; try assumption; try lia.
    intros j x Hj Hx. apply Qle_antisym; eauto.
  - intros (HW & Hlo & Hhi & Hp & Hflat). split; exists i.
    + split; [apply in_range; lia|]. apply in_support_at.
      repeat split; try assumption. intros j x Hj Hx.
      rewrite (Hflat j x Hj Hx). apply Qle_refl.
    + split; [apply in_range; lia|]. apply in_resistance_at.
      repeat split; try assumption. intros j x Hj Hx.
      rewrite (Hflat j x Hj Hx). apply Qle_refl.
Qed.

End SupportResistanceProperties.

(* ===================================================================== *)
(** ** Rolling windows of finite values, moving averages *)
(* ===================================================================== *)

Section MovingAverageProperties.
Import Float Pandas TechnicalIndicators Spec.
Local Open Scope Q_scope.
Local Arguments Qmult : simpl never.
Local Arguments Qplus : simpl never.
Local Arguments Qminus : simpl never.
Local Arguments Qdiv : simpl never.
Local Arguments Qopp : simpl never.
Local Arguments inject_Z : simpl never.









Lemma ma_key_inj (p q : nat) : ma_key p = ma_key q -> p = q.
Proof.
  unfold ma_key. intros H.
  cbn [String.append] in H. injection H as H. exact (inj pretty _ _ H).
Qed.

(** What the loop of [calculate_moving_averages] leaves under a key. *)
Lemma moving_averages_fold (prices : list Q) (periods : list nat)
    (mas : gmap string Series) (p : nat) :
  foldl (fun mas period =>
           <[ma_key period := rolling_mean period (map Fin prices)]> mas)
        mas periods !! ma_key p
  = if decide (p ∈ periods) then Some (rolling_mean p (map Fin prices))
    else mas !! ma_key p.
Proof.
  revert mas. induction periods as [|q periods IH]; intros mas; cbn [foldl].
  - rewrite decide_False by apply not_elem_of_nil. reflexivity.
  - rewrite IH. destruct (decide (p ∈ periods)) as [Hin|Hnin].
    + rewrite decide_True by (now right). reflexivity.
    + destruct (decide (p = q)) as [->|Hne].
      * rewrite decide_True by (now left). apply lookup_insert_eq.
      * rewrite decide_False.
        -- apply lookup_insert_ne. intros Heq. apply Hne. symmetry.
           now apply ma_key_inj.
        -- intros [?|?]%elem_of_cons; contradiction.
Qed.

(** X19.  [calculate_moving_averages] returns one Series per requested
    period, stored under ["MA" + str(period)]: the key of a requested
    period holds the rolling mean of that period, a duplicate request
    changes nothing, the key of a period that was not requested is absent,
    and there are no other keys. *)
Theorem moving_averages_keys (prices : list Q) (periods : list nat) :
  (forall p, p ∈ periods ->
     calculate_moving_averages prices periods !! ma_key p
     = Some (rolling_mean p (map Fin prices)))
  /\ (forall p, p ∉ periods ->
        calculate_moving_averages prices periods !! ma_key p = None)
  /\ (forall key ma,
        calculate_moving_averages prices periods !! key = Some ma ->
        exists p, p ∈ periods /\ key = ma_key p
                  /\ ma = rolling_mean p (map Fin prices)
                  /\ length ma = length prices).
Proof.
  unfold calculate_moving_averages. fold ma_key. split; [|split].
  - intros p Hp. rewrite moving_averages_fold. now rewrite decide_True.
  - intros p Hp. rewrite moving_averages_fold. now rewrite decide_False.
  - generalize (∅ : gmap string Series) (lookup_empty (M := gmap string) (A := Series)).
    induction periods as [|q periods IH] using rev_ind; intros mas Hmas key ma.
    + cbn. now rewrite Hmas.
    + rewrite foldl_app. cbn [foldl]. intros Hlook.
      destruct (decide (key = ma_key q)) as [->|Hne].
      * rewrite lookup_insert_eq in Hlook. injection Hlook as <-.
        exists q. split; [apply elem_of_app; right; now left|].
        split; [reflexivity|]. split; [reflexivity|].
        now rewrite length_rolling_mean, length_map.
      * rewrite lookup_insert_ne in Hlook by (intros Heq; apply Hne; now symmetry).
        destruct (IH mas Hmas key ma Hlook) as (p & Hp & Hrest).
        exists p. split; [apply elem_of_app; now left|exact Hrest].
Qed.



End MovingAverageProperties.

(* ===================================================================== *)
(** ** Average true range *)
(* ===================================================================== *)

Section AtrProperties.
Import Float Pandas TechnicalIndicators Spec.
Local Open Scope Q_scope.
Local Arguments Qmult : simpl never.
Local Arguments Qplus : simpl never.
Local Arguments Qminus : simpl never.
Local Arguments Qdiv : simpl never.
Local Arguments Qopp : simpl never.
Local Arguments Qabs : simpl never.
Local Arguments inject_Z : simpl never.














End AtrProperties.

(* ===================================================================== *)
(** ** Stochastic oscillator *)
(* ===================================================================== *)

Section StochasticProperties.
Import Float Pandas TechnicalIndicators Spec.
Local Open Scope Q_scope.
Local Arguments Qmult : simpl never.
Local Arguments Qplus : simpl never.
Local Arguments Qminus : simpl never.
Local Arguments Qdiv : simpl never.
Local Arguments Qopp : simpl never.
Local Arguments inject_Z : simpl never.












End StochasticProperties.

(* ===================================================================== *)
(** ** MACD *)
(* ===================================================================== *)

Section MacdProperties.
Import Float Pandas TechnicalIndicators Spec Exceptions.
Local Open Scope Q_scope.
Local Arguments Qmult : simpl never.
Local Arguments Qplus : simpl never.
Local Arguments Qminus : simpl never.
Local Arguments Qdiv : simpl never.
Local Arguments Qopp : simpl never.
Local Arguments inject_Z : simpl never.

Lemma length_ewm_from (decay num den : Q) (xs : list Q) :
  length (ewm_from decay num den xs) = length xs.
Proof.
  revert num den. induction xs as [|x xs IH]; intros num den; cbn; [|rewrite IH];
    reflexivity.
Qed.



Lemma ewm_mean_checked (span : nat) (xs : list Q) :
  ((1 <= span)%nat -> ewm_mean span xs = Return (ewm_from (ewm_decay span) 0 0 xs))
  /\ (span = 0%nat -> ewm_mean span xs = Raise ValueError).
Proof.
  unfold ewm_mean. split.
  - intros H. destruct (Nat.ltb_spec span 1); [lia|reflexivity].
  - intros ->. reflexivity.
Qed.

Lemma ewm_mean_raises (span : nat) (xs : list Q) (e : exc) :
  ewm_mean span xs = Raise e -> e = ValueError.
Proof.
  unfold ewm_mean. destruct (span <? 1)%nat; [|discriminate]. congruence.
Qed.

(** X23.  [calculate_macd] checks its spans and has no missing prefix: it
    raises [ValueError] when a span is 0; for spans of at least 1 it
    returns three Series of the length of the input, and each of them
    starts at 0, because an exponential average starts at the first
    value. *)
Theorem macd_spans_checked (prices : list Q) (fast slow signal : nat) :
  ((1 <= fast)%nat -> (1 <= slow)%nat -> (1 <= signal)%nat ->
   exists macd_line signal_line histogram,
     calculate_macd prices fast slow signal
     = Return (macd_line, signal_line, histogram)
     /\ length macd_line = length prices
     /\ length signal_line = length prices
     /\ length histogram = length prices
     /\ (forall v, macd_line !! 0%nat = Some v -> v == 0)
     /\ (forall v, signal_line !! 0%nat = Some v -> v == 0)
     /\ (forall v, histogram !! 0%nat = Some v -> v == 0))
  /\ (fast = 0%nat \/ slow = 0%nat \/ signal = 0%nat ->
      calculate_macd prices fast slow signal = Raise ValueError).
Proof.
  split.
  - intros Hf Hs Hg. unfold calculate_macd.
    rewrite (proj1 (ewm_mean_checked fast prices) Hf).
    rewrite (proj1 (ewm_mean_checked slow prices) Hs). cbn [bind].
    rewrite (proj1 (ewm_mean_checked signal _) Hg). cbn [bind].
    eexists. eexists. eexists. split; [reflexivity|].
    assert (Hm : length (zip_with Qminus (ewm_from (ewm_decay fast) 0 0 prices)
                           (ewm_from (ewm_decay slow) 0 0 prices)) = length prices).
    { rewrite length_zip_with, !length_ewm_from. lia. }
    split; [exact Hm|]. split; [now rewrite length_ewm_from|].
    split; [rewrite length_zip_with, length_ewm_from; lia|].
    destruct prices as [|x xs].
    + repeat split; intros v Hv; discriminate.
    + assert (H0 : forall v,
                zip_with Qminus (ewm_from (ewm_decay fast) 0 0 (x :: xs))
                  (ewm_from (ewm_decay slow) 0 0 (x :: xs)) !! 0%nat = Some v ->
                v == 0).
      { intros v Hv. cbn in Hv. injection Hv as <-. field. }
      split; [exact H0|].
      cbn [ewm_from zip_with] in H0 |- *.
      split; intros v Hv; cbn in Hv; injection Hv as <-.
      * specialize (H0 _ eq_refl).
        assert (E : forall a, (a + ewm_decay signal * 0) / (1 + ewm_decay signal * 0) == a)
          by (intros a; field).
        rewrite E. exact H0.
      * specialize (H0 _ eq_refl).
        assert (E : forall a, a - (a + ewm_decay signal * 0) / (1 + ewm_decay signal * 0) == 0)
          by (intros a; field).
        apply E.
  - unfold calculate_macd. intros [-> | [-> | ->]].
    + reflexivity.
    + destruct (ewm_mean fast prices) as [ema|e] eqn:E; [reflexivity|].
      now rewrite (ewm_mean_raises _ _ _ E).
    + destruct (ewm_mean fast prices) as [ema|e] eqn:E;
        [|now rewrite (ewm_mean_raises _ _ _ E)].
      destruct (ewm_mean slow prices) as [ema'|e] eqn:E'; [reflexivity|].
      now rewrite (ewm_mean_raises _ _ _ E').
Qed.



End MacdProperties.

(* ===================================================================== *)
(** ** Data preparation of the LSTM model *)
(* ===================================================================== *)

Section PrepareDataProperties.
Import Float Pandas TechnicalIndicators Spec Exceptions LSTMModel.
Local Open Scope Q_scope.
Local Arguments Qmult : simpl never.
Local Arguments Qplus : simpl never.
Local Arguments Qminus : simpl never.
Local Arguments Qdiv : simpl never.
Local Arguments Qopp : simpl never.

Lemma iloc_slice_window {A} (l : list A) (i n : nat) :
  iloc_slice l i (i + n) = take n (drop i l).
Proof. unfold iloc_slice. now rewrite take_drop_commute. Qed.

(** The loop of [prepare_data] after its first [n] rounds. *)
Lemma windows_rounds (lookback : nat) (scaled : list Q) (n : nat) :
  (n <= length scaled - lookback)%nat ->
  foldl (fun '(X, y) i =>
           match scaled !! (i + lookback)%nat with
           | Some target =>
               (X ++ [iloc_slice scaled i (i + lookback)], y ++ [target])
           | None => (X, y)
           end)
        ([], []) (seq 0 n)
  = (map (fun i => take lookback (drop i scaled)) (seq 0 n),
     take n (drop lookback scaled)).
Proof.
  induction n as [|n IH]; intros Hn; [reflexivity|].
  rewrite seq_S, foldl_app, IH by lia. cbn [foldl Nat.add].
  destruct (lookup_lt_is_Some_2 scaled (n + lookback)) as [t Ht]; [lia|].
  rewrite Ht, map_app, iloc_slice_window. cbn [map]. f_equal.
  symmetry. apply take_S_r. rewrite lookup_drop.
  now replace (lookback + n)%nat with (n + lookback)%nat by lia.
Qed.

Lemma windows_spec (lookback : nat) (scaled : list Q) :
  windows lookback scaled
  = (map (fun i => take lookback (drop i scaled))
         (seq 0 (length scaled - lookback)),
     drop lookback scaled).
Proof.
  unfold windows, range. rewrite Nat.sub_0_r, windows_rounds by lia.
  f_equal. apply firstn_all2. rewrite length_drop. lia.
Qed.

(** X25.  [prepare_data] on a non-empty price array fits the scaler and
    returns [max(0, n - lookback)] samples: sample [i] is the [lookback]
    scaled prices starting at position [i], its target is the scaled price
    right after them (so the targets are the scaled series without its
    first [lookback] values), and each sample is its predecessor shifted
    by one, ending in the predecessor's target.  On an empty array the
    scaler raises [ValueError] and is left unfitted. *)
Theorem prepare_data_windows (self : LSTMModel.t) (prices : list Q) :
  (prices <> [] ->
   exists sc X y,
     fit prices = Return sc
     /\ prepare_data self prices
        = (Return (X, y),
           {| lookback_window := lookback_window self; scaler := Some sc |})
     /\ length X = (length prices - lookback_window self)%nat
     /\ y = drop (lookback_window self) (transform sc prices)
     /\ length y = length X
     /\ (forall i, (i < length prices - lookback_window self)%nat ->
           X !! i = Some (take (lookback_window self) (drop i (transform sc prices)))
           /\ length (take (lookback_window self) (drop i (transform sc prices)))
              = lookback_window self
           /\ y !! i = transform sc prices !! (i + lookback_window self)%nat)
     /\ (forall i w t w',
           X !! i = Some w -> y !! i = Some t -> X !! S i = Some w' ->
           w' = drop 1 (w ++ [t])))
  /\ prepare_data self []
     = (Raise ValueError,
        {| lookback_window := lookback_window self; scaler := None |}).
Proof.
  split; [|reflexivity].
  intros Hne. destruct (fit prices) as [sc|e] eqn:Hfit.
  2: { destruct prices; [congruence|discriminate]. }
  set (L := lookback_window self).
  set (scaled := transform sc prices).
  assert (Hslen : length scaled = length prices).
  { unfold scaled, transform. apply length_map. }
  exists sc, (map (fun i => take L (drop i scaled)) (seq 0 (length scaled - L))),
    (drop L scaled).
  split; [reflexivity|]. split.
  { unfold prepare_data. rewrite Hfit. fold scaled L. now rewrite windows_spec. }
  assert (HX : forall i, (i < length prices - L)%nat ->
            map (fun i => take L (drop i scaled)) (seq 0 (length scaled - L)) !! i
            = Some (take L (drop i scaled))).
  { intros i Hi. change (map ?g ?l) with (g <$> l).
    rewrite list_lookup_fmap, lookup_seq_lt by lia. reflexivity. }
  split; [rewrite length_map, length_seq; lia|].
  split; [reflexivity|].
  split; [rewrite length_drop, length_map, length_seq; lia|].
  fold scaled. split.
  - intros i Hi. split; [now apply HX|]. split.
    + rewrite length_take, length_drop. lia.
    + rewrite lookup_drop. f_equal. lia.
  - intros i w t w' Hw Ht Hw'.
    assert (Hi : (S i < length prices - L)%nat).
    { apply lookup_lt_Some in Hw'. rewrite length_map, length_seq in Hw'. lia. }
    rewrite HX in Hw by lia. rewrite HX in Hw' by lia.
    injection Hw as <-. injection Hw' as <-.
    rewrite lookup_drop in Ht.
    assert (Ht' : drop i scaled !! L = Some t) by now rewrite lookup_drop, (Nat.add_comm i L).
    rewrite <- (take_S_r _ _ _ Ht').
    replace (S i) with (i + 1)%nat by lia.
    rewrite <- (drop_drop scaled 1 i).
    destruct (drop i scaled) as [|z zs]; [discriminate|]. reflexivity.
Qed.

End PrepareDataProperties.

(* ===================================================================== *)
(** ** Account balances of the exchange client *)
(* ===================================================================== *)

Section AccountBalanceProperties.
Import Float Spec Exceptions BinanceClient.
Local Open Scope Q_scope.
Local Arguments Qplus : simpl never.

Variable float : string -> option Q.

Lemma record_asset_parsed (balances : gmap string Balance) (e : AssetBalance) (f l : Q) :
  float (free e) = Some f -> float (locked e) = Some l ->
  record_asset float balances e
  = Return (if Qltb 0 f || Qltb 0 l
            then <[asset e := {| balance_free := f; balance_locked := l;
                                 balance_total := f + l |}]> balances
            else balances).
Proof.
  intros Hf Hl. unfold record_asset, to_float. rewrite Hf, Hl. cbn [bind].
  now destruct (Qltb 0 f || Qltb 0 l).
Qed.

Lemma record_asset_unparsed (balances : gmap string Balance) (e : AssetBalance) :
  ~ parses float e -> record_asset float balances e = Raise ValueError.
Proof.
  intros Hbad. unfold record_asset, to_float.
  destruct (float (free e)) as [f|] eqn:Hf; [|reflexivity].
  destruct (float (locked e)) as [l|] eqn:Hl; [|reflexivity].
  exfalso. apply Hbad. split; [rewrite Hf|rewrite Hl]; eauto.
Qed.

Lemma positive_or (f l : Q) : Qltb 0 f || Qltb 0 l = true <-> 0 < f \/ 0 < l.
Proof. rewrite orb_true_iff, !Qltb_true. reflexivity. Qed.

(** The loop over entries that all parse: what the dict holds afterwards. *)
Lemma balances_fold (entries : list AssetBalance) (start : gmap string Balance) :
  Forall (parses float) entries ->
  exists balances,
    foldl (fun acc a => bind acc (fun b => record_asset float b a))
          (Return start) entries = Return balances
    /\ (forall a b, balances !! a = Some b ->
          start !! a = Some b
          \/ (balance_total b = balance_free b + balance_locked b
              /\ (0 < balance_free b \/ 0 < balance_locked b)
              /\ exists e, e ∈ entries /\ asset e = a
                           /\ float (free e) = Some (balance_free b)
                           /\ float (locked e) = Some (balance_locked b)))
    /\ (forall a, balances !! a = None <->
          start !! a = None
          /\ forall e, e ∈ entries -> asset e = a -> ~ holds_funds float e).
Proof.
  induction entries as [|e entries IH] using rev_ind; intros Hparse.
  - exists start. split; [reflexivity|]. split; [auto|].
    intros a. split; [|tauto]. intros H. split; [exact H|].
    intros e He. now apply elem_of_nil in He.
  - apply Forall_app in Hparse as [Hes He].
    apply Forall_cons in He as [[[f Hf] [l Hl]] _].
    destruct (IH Hes) as (m & Hm & Hsome & Hnone).
    rewrite foldl_app, Hm. cbn [foldl bind].
    rewrite (record_asset_parsed m e f l Hf Hl). eexists. split; [reflexivity|].
    destruct (Qltb 0 f || Qltb 0 l) eqn:Hq.
    + apply positive_or in Hq. split.
      * intros a b Hb. destruct (decide (asset e = a)) as [<-|Hne].
        -- rewrite lookup_insert_eq in Hb. injection Hb as <-. right.
           cbn. split; [reflexivity|]. split; [exact Hq|].
           exists e. rewrite elem_of_app, elem_of_cons. auto 6.
        -- rewrite lookup_insert_ne in Hb by exact Hne.
           destruct (Hsome a b Hb) as [H|(H1 & H2 & e' & He' & H3)]; [now left|].
           right. split; [exact H1|]. split; [exact H2|].
           exists e'. rewrite elem_of_app. auto.
      * intros a. destruct (decide (asset e = a)) as [<-|Hne].
        -- rewrite lookup_insert_eq. split; [discriminate|].
           intros [_ Hno]. exfalso. apply (Hno e).
           ++ rewrite elem_of_app, elem_of_cons. auto.
           ++ reflexivity.
           ++ exists f, l. auto.
        -- rewrite lookup_insert_ne by exact Hne. rewrite Hnone.
           split; intros [H1 H2]; (split; [exact H1|]).
           ++ intros e' [He'|He']%elem_of_app; [now apply H2|].
              apply elem_of_cons in He' as [->|[]%elem_of_nil]. congruence.
           ++ intros e' He'. apply H2. rewrite elem_of_app. now left.
    + assert (Hnot : ~ holds_funds float e).
      { intros (f' & l' & Hf' & Hl' & Hpos). rewrite Hf in Hf'. rewrite Hl in Hl'.
        injection Hf' as <-. injection Hl' as <-.
        apply positive_or in Hpos. congruence. }
      split.
      * intros a b Hb.
        destruct (Hsome a b Hb) as [H|(H1 & H2 & e' & He' & H3)]; [now left|].
        right. split; [exact H1|]. split; [exact H2|].
        exists e'. rewrite elem_of_app. auto.
      * intros a. rewrite Hnone.
        split; intros [H1 H2]; (split; [exact H1|]).
        -- intros e' [He'|He']%elem_of_app; [now apply H2|].
           apply elem_of_cons in He' as [->|[]%elem_of_nil]. intros _. exact Hnot.
        -- intros e' He'. apply H2. rewrite elem_of_app. now left.
Qed.

Lemma balances_fold_raised (entries : list AssetBalance) (e : exc) :
  foldl (fun acc a => bind acc (fun b => record_asset float b a))
        (Raise e) entries = Raise e.
Proof. induction entries as [|a entries IH]; [reflexivity|exact IH]. Qed.

Lemma balances_fold_unparsed (entries : list AssetBalance) (start : gmap string Balance) :
  ~ Forall (parses float) entries ->
  foldl (fun acc a => bind acc (fun b => record_asset float b a))
        (Return start) entries = Raise ValueError.
Proof.
  revert start. induction entries as [|a entries IH]; intros start Hbad.
  - exfalso. apply Hbad. constructor.
  - cbn [foldl bind].
    destruct (float (free a)) as [f|] eqn:Hf.
    + destruct (float (locked a)) as [l|] eqn:Hl.
      * rewrite (record_asset_parsed start a f l Hf Hl). apply IH.
        intros Hrest. apply Hbad. constructor; [|exact Hrest].
        split; [rewrite Hf|rewrite Hl]; eauto.
      * rewrite record_asset_unparsed; [apply balances_fold_raised|].
        intros [_ [l Hl']]. congruence.
    + rewrite record_asset_unparsed; [apply balances_fold_raised|].
      intros [[f Hf'] _]. congruence.
Qed.

(** X27.  [get_account_balance] passes an exception of the API on.
    When every amount of the listing parses it returns a dict in which
    every reported asset has [total = free + locked] with a positive free
    or locked amount taken from an entry of that asset, and in which an
    asset is absent exactly when none of its entries has a positive
    amount; when some amount does not parse, the call raises
    [ValueError]. *)
Theorem account_balance_filters (entries : list AssetBalance) :
  (forall e, get_account_balance float (Raise e) = Raise e)
  /\ (Forall (parses float) entries ->
      exists balances,
        get_account_balance float (Return entries) = Return balances
        /\ (forall a b, balances !! a = Some b ->
              balance_total b = balance_free b + balance_locked b
              /\ (0 < balance_free b \/ 0 < balance_locked b)
              /\ exists e, e ∈ entries /\ asset e = a
                           /\ float (free e) = Some (balance_free b)
                           /\ float (locked e) = Some (balance_locked b))
        /\ (forall a, balances !! a = None <->
              forall e, e ∈ entries -> asset e = a -> ~ holds_funds float e))
  /\ (~ Forall (parses float) entries ->
      get_account_balance float (Return entries) = Raise ValueError).
Proof.
  split; [reflexivity|]. split.
  - intros Hparse. destruct (balances_fold entries ∅ Hparse) as (m & Hm & Hsome & Hnone).
    exists m. split; [exact Hm|]. split.
    + intros a b Hb. destruct (Hsome a b Hb) as [H|H]; [|exact H].
      now rewrite lookup_empty in H.
    + intros a. rewrite Hnone, lookup_empty. tauto.
  - intros Hbad. now apply balances_fold_unparsed.
Qed.

End AccountBalanceProperties.
